(** * lit-gpt adapter utilities: a shallow embedding and its properties

    The development follows the Python sources file by file:

    - [Py]              the Python built-ins the scripts rely on
                        ([in] on strings, [str.split], [str.strip], [max],
                        [list.index], slicing, [%]);
    - [AdapterV2]       [lit_parrot/adapter_v2.py];
    - [Finetune]        [finetune/adapter.py]: [get_longest_seq_length],
                        [get_batch] and the [train] loop;
    - [XlaFinetune]     [xla/finetune/adapter.py]: the module constants and
                        the [train] loop;
    - [GenerateAdapter] [generate_adapter.py]: the extraction of the
                        response from the decoded text;
    - [MergeLora]       [scripts/merge_lora.py] over a model of the
                        checkpoint directory;
    - [FinetuneMore]    [finetune/adapter.py]: [setup], the sequence
                        length [train] gives the model, and the trace of
                        a whole run in closed form;
    - [XlaMore]         [xla/finetune/adapter.py]: [get_batch] and the
                        trace of a run in closed form.

    Python integers are [Z]; lengths and list positions are [nat]; an
    operation that raises is an [option] (or a sum) whose failure branch
    stands for the exception. *)

From Stdlib Require Import ZArith Lia Ascii.
From Stdlib Require Import Floats.SpecFloat.
From stdpp Require Import base option list gmap strings.
From Equations Require Import Equations.

Local Open Scope Z_scope.

(* ================================================================== *)
(** * Part I: definitions                                              *)
(* ================================================================== *)

(** ** Python built-ins *)
Module Py.

Section Sequences.
Context {A : Type} `{EqDecision A}.

(** [l.startswith(s)] on sequences. *)
Fixpoint startswith (s l : list A) : bool :=
  match s, l with
  | [], _ => true
  | _ :: _, [] => false
  | a :: s', b :: l' => if decide (a = b) then startswith s' l' else false
  end.

(** [s in l] for strings: [s] occurs as a contiguous block of [l]. *)
Fixpoint contains (s l : list A) : bool :=
  startswith s l ||
  match l with
  | [] => false
  | _ :: l' => contains s l'
  end.

(** [l.partition(sep)] for a separator that occurs: the text before its
    first occurrence and the text after it; [None] when [sep] does not
    occur. *)
Fixpoint partition (sep l : list A) : option (list A * list A) :=
  if startswith sep l then Some ([], drop (length sep) l)
  else match l with
       | [] => None
       | c :: l' => found ← partition sep l'; Some (c :: found.1, found.2)
       end.

(** Python slice [l[:m]]: a negative bound counts from the end. *)
Definition slice_to (m : Z) (l : list A) : list A :=
  if m <? 0 then take (Z.to_nat (Z.of_nat (length l) + m)) l
  else take (Z.to_nat m) l.
End Sequences.

(** A value together with the equation that defines it, so that a case
    analysis on it keeps the equation. *)
Definition inspect {A} (a : A) : {b | a = b} := exist _ a eq_refl.

(** [l.split(sep)] for a non-empty separator [a :: sep']: cut at the
    first occurrence and split what follows it. *)
Equations? split_nonempty {A} `{EqDecision A} (a : A) (sep' l : list A)
    : list (list A) by wf (length l) lt :=
  split_nonempty a sep' l with inspect (partition (a :: sep') l) := {
    | exist _ (Some found) H => found.1 :: split_nonempty a sep' found.2
    | exist _ None _ => [l] }.
Proof.
  clear split_nonempty. revert l0 H.
  induction l as [|c l IH]; intros before H; [done|].
  cbn [partition] in H. destruct (startswith (a :: sep') (c :: l)).
  - injection H as _ <-. rewrite length_drop. simpl. lia.
  - destruct (partition (a :: sep') l) as [[p q]|] eqn:E; [|done].
    simpl in H. injection H as _ <-. specialize (IH _ eq_refl). simpl. lia.
Qed.

(** [l.split(sep)]; an empty separator raises [ValueError]. *)
Definition split {A} `{EqDecision A} (sep l : list A) : option (list (list A)) :=
  match sep with
  | [] => None
  | a :: sep' => Some (split_nonempty a sep' l)
  end.

(** A [str] as the sequence of its code points. *)
Definition str : Type := list N.

(** [c.isspace()] on a code point, the characters [str.strip()] removes. *)
Definition isspace (c : N) : bool :=
  ((9 <=? c) && (c <=? 13) || (28 <=? c) && (c <=? 32) ||
   (c =? 133) || (c =? 160) || (c =? 5760) ||
   (8192 <=? c) && (c <=? 8202) || (c =? 8232) || (c =? 8233) ||
   (c =? 8239) || (c =? 8287) || (c =? 12288))%N.

(** [s.lstrip()], [s.rstrip()] and [s.strip()]. *)
Fixpoint lstrip (s : str) : str :=
  match s with
  | [] => []
  | c :: s' => if isspace c then lstrip s' else s
  end.

Definition rstrip (s : str) : str := reverse (lstrip (reverse s)).

Definition strip (s : str) : str := rstrip (lstrip s).

(** The characters of a string, first to last. *)
Fixpoint chars (s : string) : list ascii :=
  match s with
  | EmptyString => []
  | String c s' => c :: chars s'
  end.

(** A string literal as a [str]. *)
Definition literal (s : string) : str := map N_of_ascii (chars s).

(** [s in name] on names. *)
Definition str_contains (s name : string) : bool :=
  contains (chars s) (chars name).

(** [any(s in name for s in substrings)]. *)
Definition any_in (substrings : list string) (name : string) : bool :=
  existsb (λ s, str_contains s name) substrings.

Global Arguments str_contains : simpl never.
Global Arguments any_in : simpl never.

(** [max(l)] on a list of lengths; [ValueError] on the empty list. *)
Definition max (l : list nat) : option nat :=
  match l with
  | [] => None
  | x :: r => Some (foldl Nat.max x r)
  end.

(** [l.index(x)]: the first position holding [x]; [ValueError] if none. *)
Fixpoint index (x : nat) (l : list nat) : option nat :=
  match l with
  | [] => None
  | y :: r => if decide (y = x) then Some 0%nat else S <$> index x r
  end.

(** [a % b] on integers: the sign follows the divisor, and a zero
    divisor raises [ZeroDivisionError]. *)
Definition mod_ (a b : Z) : option Z :=
  if b =? 0 then None else Some (a mod b).

(** [a // b]. *)
Definition floordiv (a b : Z) : option Z :=
  if b =? 0 then None else Some (a / b).

(** Truthiness of an [Optional[int]]: [None] and [0] are falsy. *)
Definition truthy (o : option Z) : bool :=
  match o with
  | None => false
  | Some z => negb (z =? 0)
  end.

End Py.

(** ** lit_parrot/adapter_v2.py *)
Module AdapterV2.

(** A [torch.nn.Parameter]: a tensor and its [requires_grad] flag. *)
Record Param (T : Type) := { data : T; requires_grad : bool }.
Arguments data {T} _.
Arguments requires_grad {T} _.

Definition set_requires_grad {T} (b : bool) (p : Param T) : Param T :=
  {| data := data p; requires_grad := b |}.

(** A model as [named_parameters()] sees it: the parameter objects live
    in a store keyed by object identity, and [named_parameters] lists
    each of them once under its qualified name. *)
Record Model (T : Type) := {
  store : gmap nat (Param T);
  named_parameters : list (string * nat)
}.
Arguments store {T} _.
Arguments named_parameters {T} _.

Definition trainable_substrings : list string :=
  ["adapter_wte"; "gating_factor"; "adapter_scale"; "adapter_bias";
   "norm_1"; "norm_2"; "ln_f"].

(** [mark_only_adapter_v2_as_trainable(model)]: the loop assigns
    [param.requires_grad] on every parameter object in turn; the
    function returns [None]. *)
Definition mark_only_adapter_v2_as_trainable {T} (model : Model T)
    : Model T * unit :=
  ({| store :=
        foldl (λ st '(name, param),
                 alter (set_requires_grad (Py.any_in trainable_substrings name)) param st)
              (store model) (named_parameters model);
      named_parameters := named_parameters model |}, tt).

Definition saved_substrings : list string :=
  ["adapter_wte"; "gating_factor"; "adapter_scale"; "adapter_bias"].

(** [adapter_v2_state_from_state_dict(state_dict)]: a new dict with the
    entries whose name holds one of the four substrings. *)
Definition adapter_v2_state_from_state_dict {T} (state_dict : gmap string T)
    : gmap string T :=
  filter (λ '(name, param), Py.any_in saved_substrings name = true) state_dict.

(** *** Linear layers *)

(** The element type of a tensor with the arithmetic the forward pass
    uses; one instance per dtype. *)
Class Scalar (R : Type) := {
  zero : R;
  one : R;
  add : R → R → R;
  mul : R → R → R
}.

(** What the initial values rely on: on the values a tensor can hold
    ([valid]), adding [zero] on the right and multiplying by [one] on
    the left give back the same number ([same]). *)
Class ScalarLaws (R : Type) `{Scalar R} (valid : R → Prop) (same : R → R → Prop) := {
  same_trans : ∀ x y z, same x y → same y z → same x z;
  add_zero_valid : ∀ x, valid x → valid (add x zero);
  add_zero : ∀ x, valid x → same (add x zero) x;
  mul_one : ∀ x, valid x → same (mul one x) x
}.

(** Exact integer arithmetic. *)
Global Instance Z_scalar : Scalar Z :=
  {| zero := 0; one := 1; add := Z.add; mul := Z.mul |}.

(** IEEE 754 binary arithmetic with [prec] bits of mantissa and
    exponent bound [emax] (binary32 is 24 and 128, bfloat16 is 8 and
    128, binary16 is 11 and 16), round to nearest even. *)
Definition float_one (prec : Z) : spec_float :=
  S754_finite false (Pos.iter xO 1%positive (Z.to_pos (prec - 1))) (1 - prec).

Definition ieee_scalar (prec emax : Z) : Scalar spec_float :=
  {| zero := S754_zero false;
     one := float_one prec;
     add := SFadd prec emax;
     mul := SFmul prec emax |}.

Definition float_valid (prec emax : Z) (x : spec_float) : Prop :=
  valid_binary prec emax x = true.

(** The same float, the sign of a zero apart ([-0.0 == 0.0]). *)
Definition float_same (x y : spec_float) : Prop :=
  match x, y with
  | S754_zero _, S754_zero _ => True
  | _, _ => x = y
  end.

Global Instance float32_scalar : Scalar spec_float := ieee_scalar 24 128.

(** A tensor with a leading batch dimension is the list of its rows; a
    parameter vector is a list. [row op vec] with broadcasting: equal
    lengths combine element by element, a length of 1 is stretched,
    anything else raises. *)
Definition broadcast {R} (op : R → R → R) (row vec : list R) : option (list R) :=
  if decide (length row = length vec) then Some (zip_with op row vec)
  else match vec, row with
       | [c], _ => Some (map (λ x, op x c) row)
       | _, [x] => Some (map (op x) vec)
       | _, _ => None
       end.

(** Which function a layer's [forward] attribute is bound to. *)
Inductive ForwardMethod :=
  | LinearForward
  | AdapterV2NewForward.

(** A [torch.nn.Linear] with the two attributes the adapter adds. *)
Record Linear (R : Type) := {
  weight : Param (list (list R));
  bias : option (Param (list R));
  adapter_bias : option (Param (list R));
  adapter_scale : option (Param (list R));
  forward : ForwardMethod
}.
Arguments weight {R} _.
Arguments bias {R} _.
Arguments adapter_bias {R} _.
Arguments adapter_scale {R} _.
Arguments forward {R} _.

Section Forward.
Context {R : Type} `{Scalar R}.

(** [F.linear(input, weight, bias)] of the tensor library: the rows of
    the result, or [None] when it raises. *)
Variable F_linear : list (list R) → list (list R) → option (list R)
                    → option (list (list R)).

(** [torch.nn.Linear.forward]. *)
Definition linear_forward (self : Linear R) (input : list (list R))
    : option (list (list R)) :=
  F_linear input (data (weight self)) (data <$> bias self).

(** [adapter_v2_new_forward(self, input)]:
    [self.adapter_scale * (F.linear(...) + self.adapter_bias)]; a
    missing attribute raises. *)
Definition adapter_v2_new_forward (self : Linear R) (input : list (list R))
    : option (list (list R)) :=
  scale ← adapter_scale self;
  y ← F_linear input (data (weight self)) (data <$> bias self);
  shift ← adapter_bias self;
  shifted ← mapM (λ row, broadcast add row (data shift)) y;
  mapM (λ row, broadcast (λ x s, mul s x) row (data scale)) shifted.

(** [layer(input)]: whatever [forward] is bound to. *)
Definition call (layer : Linear R) (input : list (list R))
    : option (list (list R)) :=
  match forward layer with
  | LinearForward => linear_forward layer input
  | AdapterV2NewForward => adapter_v2_new_forward layer input
  end.
End Forward.

(** [adapter_v2_linear_with_bias_and_scale(layer)]; [weight.shape[0]] is
    the number of rows of the weight matrix. The two new vectors are
    taken in the element type of the layer. *)
Definition adapter_v2_linear_with_bias_and_scale {R} `{Scalar R}
    (layer : Linear R) : Linear R :=
  let n := length (data (weight layer)) in
  {| weight := weight layer;
     bias := bias layer;
     adapter_bias := Some {| data := replicate n zero; requires_grad := true |};
     adapter_scale := Some {| data := replicate n one; requires_grad := true |};
     forward := AdapterV2NewForward |}.

(** A stand-in for [F.linear]: every output is the dot product of an
    input row with a weight row, plus the bias entry; rows of the wrong
    width raise. *)
Definition dot {R} `{Scalar R} (x w : list R) : R :=
  match zip_with mul x w with
  | [] => zero
  | p :: ps => foldl add p ps
  end.

Definition sample_linear {R} `{Scalar R} (input weight : list (list R))
    (bias : option (list R)) : option (list (list R)) :=
  mapM (λ x,
    outs ← mapM (λ w, if decide (length x = length w) then Some (dot x w) else None)
                weight;
    match bias with
    | None => Some outs
    | Some b => broadcast add outs b
    end) input.

(** The three normalisation substrings of the trainability rule, which
    the saving rule leaves out. *)
Definition norm_substrings : list string := ["norm_1"; "norm_2"; "ln_f"].

End AdapterV2.

(** ** finetune/adapter.py *)
Module Finetune.

(** A training example: [{"input_ids": ..., "labels": ...}]. The tensors
    hold integer token ids; [.type(torch.int64)] leaves them unchanged. *)
Record Example := { input_ids : list Z; labels : list Z }.

(** [get_longest_seq_length(data)]. *)
Definition get_longest_seq_length (data : list Example) : option (nat * nat) :=
  let lengths := map (λ d, length (input_ids d)) data in
  longest_seq_length ← Py.max lengths;
  longest_seq_ix ← Py.index longest_seq_length lengths;
  Some (longest_seq_length, longest_seq_ix).

(** [torch.randint(high, (size,))]: [size] draws below [high]. The
    generator is an arbitrary stream [rng] of naturals; the call raises
    when [high] is 0 or [size] is negative. *)
Definition randint (rng : nat → nat) (high : nat) (size : Z) : option (list nat) :=
  if size <? 0 then None
  else if decide (high = 0%nat) then None
  else Some (map (λ k, rng k `mod` high)%nat (seq 0 (Z.to_nat size))).

(** The first lines of [get_batch]: the sampled positions, with the
    longest sample forced into slot 0 when requested ([ix[0] = ...]
    raises on an empty [ix]). *)
Definition batch_indices (rng : nat → nat) (data : list Example)
    (micro_batch_size : Z) (longest_seq_ix : option nat) : option (list nat) :=
  ix ← randint rng (length data) micro_batch_size;
  match longest_seq_ix with
  | None => Some ix
  | Some l =>
      match ix with
      | [] => None
      | _ :: ix' => Some (l :: ix')
      end
  end.

(** [pad_right(x, pad_id)] inside [get_batch]: [torch.full((n,), ...)]
    raises when [n] is negative. *)
Definition pad_right (max_len : nat) (x : list Z) (pad_id : Z) : option (list Z) :=
  let n := Z.of_nat max_len - Z.of_nat (length x) in
  if n <? 0 then None else Some (x ++ replicate (Z.to_nat n) pad_id).

(** [x[:, :max_seq_length]] under [if max_seq_length:]. *)
Definition truncate (max_seq_length : option Z) (rows : list (list Z)) : list (list Z) :=
  match max_seq_length with
  | Some m => if Py.truthy max_seq_length then map (Py.slice_to m) rows else rows
  | None => rows
  end.

(** The width left by [l[:m]] depends on [m] and on the length of [l] only. *)
Definition sliced_width (m : Z) (n : nat) : nat :=
  if m <? 0 then Nat.min (Z.to_nat (Z.of_nat n + m)) n else Nat.min (Z.to_nat m) n.

(** Width of the rows after [truncate], for rows of width [n] before. *)
Definition truncated_width (max_seq_length : option Z) (n : nat) : nat :=
  match max_seq_length with
  | Some m => if Py.truthy max_seq_length then sliced_width m n else n
  | None => n
  end.

(** [get_batch(fabric, data, micro_batch_size, max_seq_length,
    longest_seq_ix)]; the device transfer at the end does not change the
    tensors. *)
Definition get_batch (rng : nat → nat) (data : list Example)
    (micro_batch_size : Z) (max_seq_length : option Z)
    (longest_seq_ix : option nat) : option (list (list Z) * list (list Z)) :=
  ix ← batch_indices rng data micro_batch_size longest_seq_ix;
  samples ← mapM (λ i, data !! i) ix;
  let input_ids_ := map input_ids samples in
  let labels_ := map labels samples in
  max_len ← Py.max (map length input_ids_);
  x ← mapM (λ s, pad_right max_len s 0) input_ids_;
  y ← mapM (λ s, pad_right max_len s (-1)) labels_;
  Some (truncate max_seq_length x, truncate max_seq_length y).

(** *** The [train] loop *)

(** [TrainArgs] and [EvalArgs] of [lit_gpt/args.py], with the fields that
    [setup] fills in and [train] reads. *)
Record TrainArgs := {
  save_interval : Z;
  log_interval : Z;
  global_batch_size : Z;
  micro_batch_size : Z;
  lr_warmup_epochs : Z;
  epochs : Z;
  epoch_size : Z
}.

Record EvalArgs := {
  interval : Z;
  max_new_tokens : Z;
  max_iters : Z
}.

(** Modelled from the spec: [TrainArgs.gradient_accumulation_iters] lives
    in [lit_gpt/args.py], which is not among the sources; the
    specification gives it as
    [global_batch_size / (micro_batch_size * device_count)]. A zero
    divisor raises. *)
Definition gradient_accumulation_iters (ta : TrainArgs) (devices : Z) : option Z :=
  Py.floordiv (global_batch_size ta) (micro_batch_size ta * devices).

(** What one run of the loop does to the optimizer, the scheduler and
    the outside world, in program order. *)
Inductive Event :=
  | GetBatch (iter_num : Z) (force_longest : bool)
  | ForwardBackward (iter_num : Z) (no_backward_sync : bool)
  | OptimizerStep
  | ZeroGrad
  | SchedulerStep
  | Log (iter_num step_count : Z)
  | Validate
  | Barrier
  | SaveCheckpoint (iter_num : Z).

Global Instance Event_eq_dec : EqDecision Event.
Proof. solve_decision. Defined.

(** The loop's mutable state: [step_count] and the effects so far
    (oldest first). Tensor values (the loss, the throughput figures) are
    not tracked. *)
Record LoopState := { step_count : Z; events : list Event }.

Definition emit (es : list Event) (st : LoopState) : LoopState :=
  {| step_count := step_count st; events := events st ++ es |}.

(** [is_accumulating = iter_num % gradient_accumulation_iters(devices) != 0]. *)
Definition is_accumulating (ta : TrainArgs) (devices iter_num : Z) : option bool :=
  g ← gradient_accumulation_iters ta devices;
  r ← Py.mod_ iter_num g;
  Some (negb (r =? 0)).

(** [if not is_accumulating and step_count % k == 0: ...]; [and] is
    short-circuit, so the modulus is taken on stepping iterations only. *)
Definition every (accumulating : bool) (k : Z) (es : list Event)
    (st : LoopState) : option LoopState :=
  if accumulating then Some st
  else r ← Py.mod_ (step_count st) k;
       Some (if r =? 0 then emit es st else st).

(** The body of [for iter_num in range(1, max_iters + 1)]. Sampling the
    batch and the forward and backward pass are recorded as events;
    what they compute is outside the model. *)
Definition train_iter (ta : TrainArgs) (ea : EvalArgs) (devices iter_num : Z)
    (st : LoopState) : option LoopState :=
  let st := emit [GetBatch iter_num (bool_decide (iter_num = 1))] st in
  acc ← is_accumulating ta devices iter_num;
  let st := emit [ForwardBackward iter_num acc] st in
  let st :=
    if negb acc then
      {| step_count := step_count st + 1;
         events := events st ++ [OptimizerStep; ZeroGrad; SchedulerStep] |}
    else st in
  r ← Py.mod_ iter_num (log_interval ta);
  let st := if r =? 0 then emit [Log iter_num (step_count st)] st else st in
  st ← every acc (interval ea) [Validate; Barrier] st;
  every acc (save_interval ta) [SaveCheckpoint iter_num] st.

(** [n] consecutive iterations starting at [iter_num]. *)
Fixpoint train_loop (ta : TrainArgs) (ea : EvalArgs) (devices : Z)
    (n : nat) (iter_num : Z) (st : LoopState) : option LoopState :=
  match n with
  | O => Some st
  | S n' =>
      st' ← train_iter ta ea devices iter_num st;
      train_loop ta ea devices n' (iter_num + 1) st'
  end.

(** [train(...)]: the longest sample is looked up first (an empty data
    set raises), one validation pass is run as a sanity check, then the
    loop runs for [iter_num = 1 .. max_iters]. [n_iters] stands for
    [train_args.max_iters(devices)], defined outside the sources. *)
Definition train (ta : TrainArgs) (ea : EvalArgs) (devices : Z)
    (train_data : list Example) (n_iters : Z) : option LoopState :=
  _ ← get_longest_seq_length train_data;
  train_loop ta ea devices (Z.to_nat n_iters) 1
    {| step_count := 0; events := [Validate] |}.

(** Number of occurrences of an event in a trace. *)
Definition occurrences (e : Event) (es : list Event) : nat :=
  length (filter (λ e', e' = e) es).

(** A stretch of the trace without optimizer, gradient-clearing or
    scheduler activity. *)
Definition quiet (es : list Event) : Prop :=
  occurrences OptimizerStep es = 0%nat ∧
  occurrences ZeroGrad es = 0%nat ∧
  occurrences SchedulerStep es = 0%nat.

End Finetune.

(** ** xla/finetune/adapter.py *)
Module XlaFinetune.

(** Module-level constants. [devices] is what
    [XLAAccelerator.auto_device_count()] returned. *)
Definition eval_interval : Z := 200.
Definition save_interval : Z := 200.
Definition eval_iters : Z := 50.
Definition log_interval : Z := 1.
Definition batch_size : Z := 1.
Definition micro_batch_size : Z := 1.
Definition epoch_size : Z := 50000.
Definition num_epochs : Z := 5.

(** The constants computed when the module is loaded; a zero divisor or
    the failing [assert gradient_accumulation_iters > 0] aborts the
    import. *)
Record Hparams := {
  gradient_accumulation_iters : Z;
  max_iters : Z;
  warmup_steps : Z
}.

Definition module_constants (devices : Z) : option Hparams :=
  g ← Py.floordiv batch_size micro_batch_size;
  if negb (0 <? g) then None else
  per_epoch ← Py.floordiv epoch_size micro_batch_size;
  mi ← Py.floordiv (num_epochs * per_epoch) devices;
  w1 ← Py.floordiv (2 * per_epoch) devices;
  ws ← Py.floordiv w1 g;
  Some {| gradient_accumulation_iters := g; max_iters := mi; warmup_steps := ws |}.

(** Effects of the loop, in program order. [SetLr s w] stands for the
    assignment of [learning_rate * s / w] to every parameter group. *)
Inductive Event :=
  | MarkStep
  | SetLr (step_count warmup : Z)
  | GetBatch (iter_num : Z) (force_longest : bool)
  | Forward (iter_num : Z)
  | Backward (iter_num : Z) (no_backward_sync : bool)
  | OptimizerStep
  | ZeroGrad
  | Log (iter_num step_count : Z)
  | Validate
  | Barrier
  | SaveCheckpoint (iter_num : Z).

Global Instance Event_eq_dec : EqDecision Event.
Proof. solve_decision. Defined.

Record LoopState := { step_count : Z; events : list Event }.

Definition emit (es : list Event) (st : LoopState) : LoopState :=
  {| step_count := step_count st; events := events st ++ es |}.

(** [is_accumulating = (iter_num + 1) % gradient_accumulation_iters != 0]. *)
Definition is_accumulating (hp : Hparams) (iter_num : Z) : option bool :=
  r ← Py.mod_ (iter_num + 1) (gradient_accumulation_iters hp);
  Some (negb (r =? 0)).

(** [if not is_accumulating and step_count % k == 0: ...]. *)
Definition every (accumulating : bool) (k : Z) (es : list Event)
    (st : LoopState) : option LoopState :=
  if accumulating then Some st
  else r ← Py.mod_ (step_count st) k;
       Some (if r =? 0 then emit es st else st).

(** The body of [for iter_num in range(max_iters)]. The warm-up divides
    by [warmup_steps], which raises when that constant is 0. *)
Definition train_iter (hp : Hparams) (iter_num : Z) (st : LoopState)
    : option LoopState :=
  st ← (if step_count st <=? warmup_steps hp then
          if warmup_steps hp =? 0 then None
          else Some (emit [SetLr (step_count st) (warmup_steps hp)] st)
        else Some st);
  let st := emit [GetBatch iter_num (bool_decide (iter_num = 0))] st in
  acc ← is_accumulating hp iter_num;
  let st := emit [Forward iter_num; MarkStep; Backward iter_num acc; MarkStep] st in
  let st :=
    if negb acc then
      {| step_count := step_count st + 1;
         events := events st ++ [OptimizerStep; ZeroGrad] |}
    else emit [MarkStep] st in
  r ← Py.mod_ iter_num log_interval;
  let st := if r =? 0 then emit [Log iter_num (step_count st)] st else st in
  st ← every acc eval_interval [Validate; Barrier] st;
  every acc save_interval [SaveCheckpoint iter_num] st.

Fixpoint train_loop (hp : Hparams) (n : nat) (iter_num : Z) (st : LoopState)
    : option LoopState :=
  match n with
  | O => Some st
  | S n' =>
      st' ← train_iter hp iter_num st;
      train_loop hp n' (iter_num + 1) st'
  end.

(** [override_max_seq_length = None] at the top of the module. *)
Definition override_max_seq_length : option nat := None.

(** [get_max_seq_length(data)] raises on an empty data set ([max] of
    nothing); its values only size the batches. *)
Definition get_max_seq_length (data : list Finetune.Example)
    : option (nat * nat * nat) :=
  let lengths := map (λ d, length (Finetune.input_ids d)) data in
  max_seq_length ← Py.max lengths;
  longest_seq_ix ← Py.index max_seq_length lengths;
  Some (default max_seq_length override_max_seq_length, max_seq_length, longest_seq_ix).

(** [train(...)]: one [xm.mark_step()], then [iter_num = 0 .. max_iters - 1]. *)
Definition train (hp : Hparams) (train_data : list Finetune.Example)
    : option LoopState :=
  _ ← get_max_seq_length train_data;
  train_loop hp (Z.to_nat (max_iters hp)) 0 {| step_count := 0; events := [MarkStep] |}.

Definition occurrences (e : Event) (es : list Event) : nat :=
  length (filter (λ e', e' = e) es).

End XlaFinetune.

(** ** generate_adapter.py *)
Module GenerateAdapter.

Definition response_marker : Py.str := Py.literal "### Response:".

(** How the last statements of [main] end: the text is printed, or the
    subscript raises. *)
Inductive Outcome :=
  | Printed (text : Py.str)
  | IndexError
  | ValueError.

(** [main], from the decoded text on:
    [output = output.split("### Response:")[1].strip(); print(output)].
    Loading the model, generating and decoding come before and are not
    part of the model. *)
Definition main (output : Py.str) : Outcome :=
  match Py.split response_marker output with
  | None => ValueError
  | Some parts =>
      match parts !! 1%nat with
      | None => IndexError
      | Some part => Printed (Py.strip part)
      end
  end.

(** The part of [text] before its first response marker; all of [text]
    when it has none. *)
Definition up_to_marker (text : Py.str) : Py.str :=
  match Py.partition response_marker text with
  | Some found => found.1
  | None => text
  end.

End GenerateAdapter.

(** ** scripts/merge_lora.py *)
Module MergeLora.

(** Files are addressed as [dir / name]; a file system maps the files
    that exist to their bytes. *)
Abbreviation Path := (string * string)%type.
Abbreviation Bytes := (list N).
Abbreviation FS := (gmap (string * string) (list N)).

(** Values of the hyper-parameter file. *)
Inductive Yaml :=
  | YStr (s : string)
  | YInt (z : Z)
  | YBool (b : bool)
  | YNull
  | YOther (raw : list N).

Inductive Exception :=
  | SystemExit
  | FileNotFoundError
  | KeyError
  | TypeError
  | RuntimeError.

(** The world the script acts on: the file system, what was printed,
    and the file-system states that have been persisted so far, one per
    write or rename, oldest first. *)
Record World := {
  fs : FS;
  stdout : list string;
  history : list FS
}.

(** A computation either returns or raises, and leaves a world behind. *)
Inductive Result (A : Type) :=
  | Ok (a : A) (w : World)
  | Raise (e : Exception) (w : World).
Arguments Ok {A} _ _.
Arguments Raise {A} _ _.

Definition M (A : Type) : Type := World → Result A.

Global Instance M_ret : MRet M := λ A a w, Ok a w.
Global Instance M_bind : MBind M := λ A B f m w,
  match m w with
  | Ok a w' => f a w'
  | Raise e w' => Raise e w'
  end.

Definition raise {A} (e : Exception) : M A := λ w, Raise e w.

Definition world_after {A} (r : Result A) : World :=
  match r with
  | Ok _ w => w
  | Raise _ w => w
  end.

(** [path.is_file()]. *)
Definition is_file (p : Path) : M bool := λ w, Ok (bool_decide (is_Some (fs w !! p))) w.

(** Opening a file for reading. *)
Definition read_file (p : Path) : M Bytes := λ w,
  match fs w !! p with
  | Some b => Ok b w
  | None => Raise FileNotFoundError w
  end.

Definition persist (s : FS) (w : World) : World :=
  {| fs := s; stdout := stdout w; history := history w ++ [s] |}.

(** [torch.save(obj, path)]: creates or replaces the file. *)
Definition write_file (p : Path) (b : Bytes) : M unit := λ w,
  Ok tt (persist (<[p := b]> (fs w)) w).

(** [shutil.move(src, dst)] between two file names of one directory: a
    rename, which replaces [dst] if it exists and fails if [src] does not. *)
Definition move (src dst : Path) : M unit := λ w,
  match fs w !! src with
  | Some b => Ok tt (persist (<[dst := b]> (delete src (fs w))) w)
  | None => Raise FileNotFoundError w
  end.

Definition print (line : string) : M unit := λ w,
  Ok tt {| fs := fs w; stdout := stdout w ++ [line]; history := history w |}.

(** Modelled from the spec: [check_valid_checkpoint_dir] comes from
    [lit_gpt/utils.py], which is not among the sources. The
    specification calls a directory valid when its weights file
    [lit_model.pth] and its configuration file [lit_config.json] are
    both present, and has the command halt otherwise. *)
Definition check_valid_checkpoint_dir (checkpoint_dir : string) : M unit :=
  weights ← is_file (checkpoint_dir, "lit_model.pth");
  config ← is_file (checkpoint_dir, "lit_config.json");
  if weights && config then mret tt else raise SystemExit.

(** The three lines the script can print. *)
Definition already_merged_line : string :=
  "LoRA weights have already been merged in this checkpoint.".

Definition saved_line (d : string) : string :=
  "Saved merged weights to '" +:+ d +:+ "/lit_model.pth'".

Definition backup_line (d : string) : string :=
  "A backup of the old LoRA weights is in '" +:+ d +:+ "/lit_model.pth.lora'".

Section Externals.
(** [yaml.safe_load] on the bytes of the hyper-parameter file. *)
Variable yaml_safe_load : Bytes → option (gmap string Yaml).

(** Everything between the loading of the two checkpoints and the
    serialisation done by [torch.save]: the model is built from the
    configuration and the LoRA parameters in the given precision, the
    pretrained weights are overlaid with the LoRA checkpoint,
    [merge_lora_weights] folds the factors in, the LoRA entries are
    filtered out. [None] stands for any of these steps raising. *)
Variable merged_state_dict :
  Bytes → gmap string Yaml → option Yaml → Bytes → Bytes → option Bytes.

(** [load_lora_metadata(checkpoint_dir)]. *)
Definition load_lora_metadata (checkpoint_dir : string)
    : M (gmap string Yaml * string * option Yaml) :=
  let hparams_file := (checkpoint_dir, "hyperparameters.yaml") in
  present ← is_file hparams_file;
  if negb present then raise FileNotFoundError else
  raw ← read_file hparams_file;
  match yaml_safe_load raw with
  | None => raise RuntimeError
  | Some hparams =>
      let lora_params :=
        filter (λ '(k, v), Py.startswith (Py.chars "lora_") (Py.chars k) = true)
               hparams in
      match hparams !! "checkpoint_dir" with
      | None => raise KeyError
      | Some (YStr pretrained_checkpoint_dir) =>
          mret (lora_params, pretrained_checkpoint_dir, hparams !! "precision")
      | Some _ => raise TypeError
      end
  end.

(** [merge_lora(checkpoint_dir, pretrained_checkpoint_dir, precision)]. *)
Definition merge_lora (checkpoint_dir : string)
    (pretrained_checkpoint_dir : option string) (precision : option string)
    : M unit :=
  check_valid_checkpoint_dir checkpoint_dir;;
  match pretrained_checkpoint_dir with
  | Some d => check_valid_checkpoint_dir d
  | None => mret tt
  end;;
  merged ← is_file (checkpoint_dir, "lit_model.pth.lora");
  if (merged : bool) then
    print already_merged_line
  else
    meta ← load_lora_metadata checkpoint_dir;
    let '(lora_params, pretrained_checkpoint_dir, lora_precision) := meta in
    let precision :=
      match precision with
      | Some p => Some (YStr p)
      | None => lora_precision
      end in
    config ← read_file (checkpoint_dir, "lit_config.json");
    let lora_path := (checkpoint_dir, "lit_model.pth") in
    pretrained_checkpoint ← read_file (pretrained_checkpoint_dir, "lit_model.pth");
    lora_checkpoint ← read_file lora_path;
    match merged_state_dict config lora_params precision
            pretrained_checkpoint lora_checkpoint with
    | None => raise RuntimeError
    | Some state_dict =>
        let save_path := (checkpoint_dir, "lit_model.pth.merged") in
        write_file save_path state_dict;;
        move (checkpoint_dir, "lit_model.pth") (checkpoint_dir, "lit_model.pth.lora");;
        move (checkpoint_dir, "lit_model.pth.merged") (checkpoint_dir, "lit_model.pth");;
        print (saved_line checkpoint_dir);;
        print (backup_line checkpoint_dir)
    end.
End Externals.

(** A directory that [check_valid_checkpoint_dir] accepts. *)
Definition valid_dir (checkpoint_dir : string) (s : FS) : Prop :=
  is_Some (s !! (checkpoint_dir, "lit_model.pth")) ∧
  is_Some (s !! (checkpoint_dir, "lit_config.json")).

(** What [merge_lora] validates first: its directory and, when given,
    the pretrained directory. *)
Definition valid_dirs (checkpoint_dir : string)
    (pretrained_checkpoint_dir : option string) (s : FS) : Prop :=
  valid_dir checkpoint_dir s ∧
  from_option (λ p, valid_dir p s) True pretrained_checkpoint_dir.

(** The three states that a merge persists, from the state [s] it
    starts in, the LoRA weights [lora] and the merged weights [merged]:
    the merged file is written, the LoRA file becomes the backup, the
    merged file becomes the weights file. *)
Definition after_save (d : string) (merged : Bytes) (s : FS) : FS :=
  <[(d, "lit_model.pth.merged") := merged]> s.

Definition after_backup (d : string) (lora merged : Bytes) (s : FS) : FS :=
  <[(d, "lit_model.pth.lora") := lora]>
    (delete (d, "lit_model.pth") (after_save d merged s)).

Definition after_replace (d : string) (lora merged : Bytes) (s : FS) : FS :=
  <[(d, "lit_model.pth") := merged]>
    (delete (d, "lit_model.pth.merged") (after_backup d lora merged s)).

(** A directory holds the canonical weights file. *)
Definition has_weights (checkpoint_dir : string) (s : FS) : Prop :=
  is_Some (s !! (checkpoint_dir, "lit_model.pth")).

End MergeLora.

(** ** Sample inputs used by the worked examples *)
Module Samples.

Definition three_examples : list Finetune.Example :=
  [ {| Finetune.input_ids := [1; 2]; Finetune.labels := [-1; 2] |};
    {| Finetune.input_ids := [3; 4; 5]; Finetune.labels := [-1; -1; 5] |};
    {| Finetune.input_ids := [6; 7; 8]; Finetune.labels := [6; 7; 8] |} ].

(** A generator that draws 0, 1, 2, ... *)
Definition counting_rng : nat → nat := λ k, k.

Definition default_train_args : Finetune.TrainArgs :=
  {| Finetune.save_interval := 1000;
     Finetune.log_interval := 1;
     Finetune.global_batch_size := 64;
     Finetune.micro_batch_size := 4;
     Finetune.lr_warmup_epochs := 2;
     Finetune.epochs := 5;
     Finetune.epoch_size := 50000 |}.

Definition default_eval_args : Finetune.EvalArgs :=
  {| Finetune.interval := 600;
     Finetune.max_new_tokens := 100;
     Finetune.max_iters := 100 |}.

Definition fresh_loop : Finetune.LoopState :=
  {| Finetune.step_count := 0; Finetune.events := [Finetune.Validate] |}.

(** The accelerator-backend constants on an 8-device host. *)
Definition xla_hparams_8 : XlaFinetune.Hparams :=
  {| XlaFinetune.gradient_accumulation_iters := 1;
     XlaFinetune.max_iters := 31250;
     XlaFinetune.warmup_steps := 12500 |}.

Definition xla_fresh_loop : XlaFinetune.LoopState :=
  {| XlaFinetune.step_count := 0; XlaFinetune.events := [XlaFinetune.MarkStep] |}.

(** A three-parameter model: one normalisation weight, one attention
    weight, one gating factor; all of them trainable to begin with. *)
Definition small_model : AdapterV2.Model Z :=
  {| AdapterV2.store :=
       list_to_map
         [ (0%nat, {| AdapterV2.data := 10; AdapterV2.requires_grad := true |});
           (1%nat, {| AdapterV2.data := 11; AdapterV2.requires_grad := true |});
           (2%nat, {| AdapterV2.data := 12; AdapterV2.requires_grad := true |}) ];
     AdapterV2.named_parameters :=
       [ ("transformer.h.0.norm_1.weight", 0%nat);
         ("transformer.h.0.attn.attn.weight", 1%nat);
         ("transformer.h.0.attn.gating_factor", 2%nat) ] |}.

Definition small_state_dict : gmap string Z :=
  list_to_map
    [ ("transformer.h.0.norm_1.weight", 10);
      ("transformer.h.0.attn.attn.weight", 11);
      ("transformer.h.0.attn.gating_factor", 12);
      ("transformer.h.0.attn.attn.adapter_bias", 13) ].

(** A LoRA checkpoint directory [out] next to its base checkpoint [base]. *)
Definition lora_fs : gmap (string * string) (list N) :=
  list_to_map
    [ (("out", "lit_model.pth"), [1; 1]%N);
      (("out", "lit_config.json"), [2]%N);
      (("out", "hyperparameters.yaml"), [3]%N);
      (("base", "lit_model.pth"), [4; 4]%N);
      (("base", "lit_config.json"), [2]%N) ].

Definition lora_world : MergeLora.World :=
  {| MergeLora.fs := lora_fs; MergeLora.stdout := []; MergeLora.history := [] |}.

(** Stand-ins for the YAML reader and for the numeric merge. *)
Definition sample_yaml (raw : list N) : option (gmap string MergeLora.Yaml) :=
  Some (list_to_map [ ("checkpoint_dir", MergeLora.YStr "base");
                      ("lora_r", MergeLora.YInt 8) ]).

Definition sample_merge (config : list N) (lora_params : gmap string MergeLora.Yaml)
    (precision : option MergeLora.Yaml) (pretrained lora : list N) : option (list N) :=
  Some (pretrained ++ lora).

(** binary32 constants. *)
Definition f32_1_5 : spec_float := S754_finite false 12582912 (-23).
Definition f32_neg_2 : spec_float := S754_finite true 8388608 (-22).
Definition f32_neg_3 : spec_float := S754_finite true 12582912 (-22).
Definition f32_pos_0 : spec_float := S754_zero false.
Definition f32_neg_0 : spec_float := S754_zero true.

(** A bias-free binary32 layer with one input and two outputs, weights
    1.5 and 0.0. On the input -2.0 it yields -3.0 and -0.0. *)
Definition f32_layer : AdapterV2.Linear spec_float :=
  {| AdapterV2.weight :=
       {| AdapterV2.data := [[f32_1_5]; [f32_pos_0]];
          AdapterV2.requires_grad := false |};
     AdapterV2.bias := None;
     AdapterV2.adapter_bias := None;
     AdapterV2.adapter_scale := None;
     AdapterV2.forward := AdapterV2.LinearForward |}.

Definition f32_input : list (list spec_float) := [[f32_neg_2]].

End Samples.


(** ** Whitespace *)
Module PyMore.

(** A run of characters that [str.strip()] removes. *)
Definition spaces (ws : Py.str) : Prop := Forall (λ c, Py.isspace c = true) ws.

End PyMore.

(** ** finetune/adapter.py, further parts *)
Module FinetuneMore.

(** [min(longest_seq_length, data_args.max_seq_length or float("inf"))],
    the value [train] stores in [model.max_seq_length]: [None] and [0]
    are falsy and give way to infinity. *)
Definition model_max_seq_length (longest_seq_length : nat)
    (max_seq_length : option Z) : Z :=
  match max_seq_length with
  | Some c =>
      if Py.truthy max_seq_length then Z.min (Z.of_nat longest_seq_length) c
      else Z.of_nat longest_seq_length
  | None => Z.of_nat longest_seq_length
  end.

(** An example as [get_batch] lays it out before truncation. *)
Definition padded (max_len : nat) (pad_id : Z) (s : list Z) : list Z :=
  s ++ replicate (max_len - length s) pad_id.

(** The effects of iteration [iter_num] of the [train] loop in closed
    form, for an accumulation count [g]: the step counter after the
    iteration is [iter_num / g], and the iteration steps when [g]
    divides [iter_num]. *)
Definition iter_events (ta : Finetune.TrainArgs) (ea : Finetune.EvalArgs)
    (g iter_num : Z) : list Finetune.Event :=
  let acc := negb (iter_num mod g =? 0) in
  let s := iter_num / g in
  [Finetune.GetBatch iter_num (bool_decide (iter_num = 1));
   Finetune.ForwardBackward iter_num acc] ++
  (if acc then []
   else [Finetune.OptimizerStep; Finetune.ZeroGrad; Finetune.SchedulerStep]) ++
  (if iter_num mod Finetune.log_interval ta =? 0 then [Finetune.Log iter_num s]
   else []) ++
  (if acc then []
   else if s mod Finetune.interval ea =? 0
        then [Finetune.Validate; Finetune.Barrier] else []) ++
  (if acc then []
   else if s mod Finetune.save_interval ta =? 0
        then [Finetune.SaveCheckpoint iter_num] else []).

(** *** [setup] *)

(** [torch.float16], [torch.bfloat16], [torch.float32]. *)
Inductive Dtype := Float16 | BFloat16 | Float32.

(** The strategy handed to [L.Fabric]: the string ["auto"] or an
    [FSDPStrategy] object. *)
Inductive Strategy := Auto | FSDPStrategy.

Inductive SetupError := ValueError | KeyError | NotImplementedError.

(** The arguments [setup] builds for [L.Fabric]; [plugins] is the
    [BitsandbytesPrecision(mode, dtype)] object or [None]. *)
Record Fabric := {
  fabric_devices : Z;
  strategy : Strategy;
  precision : option string;
  plugins : option (string * Dtype)
}.

(** [a or b] on an [Optional[str]]: [None] and the empty string are falsy. *)
Definition str_or (a : option string) (b : string) : string :=
  match a with
  | Some s => if decide (s = "") then b else s
  | None => b
  end.

(** [if quantize:]. *)
Definition str_truthy (a : option string) : bool :=
  match a with
  | Some s => negb (bool_decide (s = ""))
  | None => false
  end.

(** [s[n:]] for [n >= 0]. *)
Fixpoint str_drop (n : nat) (s : string) : string :=
  match n, s with
  | O, _ => s
  | S n', String _ s' => str_drop n' s'
  | S _, EmptyString => EmptyString
  end.

(** The dict literal that maps a precision name to a dtype. *)
Definition precision_dtypes : gmap string Dtype :=
  {[ "16-true" := Float16; "bf16-true" := BFloat16; "32-true" := Float32 ]}.

(** [setup(...)] up to the construction of the [Fabric] object, as a
    function of the three arguments that decide it.
    [default_precision] is what
    [get_default_supported_precision(training=True)] returns. The
    logger and the launch of [main] follow and are not modelled. *)
Definition setup (default_precision : string) (precision_arg quantize : option string)
    (devices : Z) : SetupError + Fabric :=
  let precision0 := str_or precision_arg default_precision in
  let quantized : SetupError + (option (string * Dtype) * option string) :=
    match quantize with
    | Some q =>
        if Py.startswith (Py.chars "bnb.") (Py.chars q) then
          if Py.str_contains "mixed" precision0 then inl ValueError
          else match precision_dtypes !! precision0 with
               | None => inl KeyError
               | Some dtype => inr (Some (str_drop 4 q, dtype), None)
               end
        else inr (None, Some precision0)
    | None => inr (None, Some precision0)
    end in
  match quantized with
  | inl e => inl e
  | inr (plugins0, precision1) =>
      if 1 <? devices then
        if str_truthy quantize then inl NotImplementedError
        else inr {| fabric_devices := devices; strategy := FSDPStrategy;
                    precision := precision1; plugins := plugins0 |}
      else inr {| fabric_devices := devices; strategy := Auto;
                  precision := precision1; plugins := plugins0 |}
  end.

(** [quantize] names a bitsandbytes mode: it is ["bnb."] followed by
    the mode. *)
Definition is_bnb (quantize : option string) : Prop :=
  ∃ mode, quantize = Some ("bnb." +:+ mode).

End FinetuneMore.

(** ** xla/finetune/adapter.py, further parts *)
Module XlaMore.

(** [get_batch(fabric, data, longest_seq_length, longest_seq_ix)]: the
    positions are drawn as in the standard trainer, with the module's
    [micro_batch_size]; every example is padded to the fixed
    [longest_seq_length], and nothing is truncated. *)
Definition get_batch (rng : nat → nat) (data : list Finetune.Example)
    (longest_seq_length : nat) (longest_seq_ix : option nat)
    : option (list (list Z) * list (list Z)) :=
  ix ← Finetune.batch_indices rng data XlaFinetune.micro_batch_size longest_seq_ix;
  samples ← mapM (λ i, data !! i) ix;
  let input_ids_ := map Finetune.input_ids samples in
  let labels_ := map Finetune.labels samples in
  x ← mapM (λ s, Finetune.pad_right longest_seq_length s 0) input_ids_;
  y ← mapM (λ s, Finetune.pad_right longest_seq_length s (-1)) labels_;
  Some (x, y).

(** The effects of iteration [iter_num] of the loop in closed form, for
    the accumulation count 1 that the module computes: the step counter
    is [iter_num] before the iteration and [iter_num + 1] after it. *)
Definition iter_events (hp : XlaFinetune.Hparams) (iter_num : Z)
    : list XlaFinetune.Event :=
  (if iter_num <=? XlaFinetune.warmup_steps hp
   then [XlaFinetune.SetLr iter_num (XlaFinetune.warmup_steps hp)] else []) ++
  [XlaFinetune.GetBatch iter_num (bool_decide (iter_num = 0));
   XlaFinetune.Forward iter_num; XlaFinetune.MarkStep;
   XlaFinetune.Backward iter_num false; XlaFinetune.MarkStep;
   XlaFinetune.OptimizerStep; XlaFinetune.ZeroGrad;
   XlaFinetune.Log iter_num (iter_num + 1)] ++
  (if (iter_num + 1) mod XlaFinetune.eval_interval =? 0
   then [XlaFinetune.Validate; XlaFinetune.Barrier] else []) ++
  (if (iter_num + 1) mod XlaFinetune.save_interval =? 0
   then [XlaFinetune.SaveCheckpoint iter_num] else []).

End XlaMore.

(** ** Further sample data *)
Module MoreSamples.

(** The LoRA directory before its hyper-parameter file was written. *)
Definition no_metadata_world : MergeLora.World :=
  {| MergeLora.fs := delete ("out", "hyperparameters.yaml") Samples.lora_fs;
     MergeLora.stdout := []; MergeLora.history := [] |}.

(** The base checkpoint also exists, with other weights, in a second
    directory. *)
Definition moved_world : MergeLora.World :=
  {| MergeLora.fs :=
       <[("moved", "lit_model.pth") := [9]%N]>
         (<[("moved", "lit_config.json") := [2]%N]> Samples.lora_fs);
     MergeLora.stdout := []; MergeLora.history := [] |}.




(** The accelerator-backend constants for 50000 devices: five
    iterations, the first three of them in the warm-up. *)
Definition xla_hparams_50000 : XlaFinetune.Hparams :=
  {| XlaFinetune.gradient_accumulation_iters := 1;
     XlaFinetune.max_iters := 5;
     XlaFinetune.warmup_steps := 2 |}.

End MoreSamples.

(** Checks an equation by evaluating both sides. *)
Ltac vm_refl :=
  lazymatch goal with |- _ = ?r => vm_cast_no_check (@eq_refl _ r) end.
(* ================================================================== *)
(** * Part II: properties                                              *)
(* ================================================================== *)

(** ** Facts about the Python built-ins *)

Lemma foldl_max_ge (r : list nat) (x : nat) :
  (x ≤ foldl Nat.max x r)%nat ∧ Forall (λ y, y ≤ foldl Nat.max x r)%nat r.
Proof.
  revert x. induction r as [|y r IH]; intros x; simpl.
  - split; [lia | constructor].
  - destruct (IH (Nat.max x y)) as [Hx Hr]. split; [lia|].
    constructor; [lia | exact Hr].
Qed.

Lemma foldl_max_elem (r : list nat) (x : nat) :
  foldl Nat.max x r ∈ x :: r.
Proof.
  revert x. induction r as [|y r IH]; intros x; simpl.
  - apply list_elem_of_here.
  - specialize (IH (Nat.max x y)).
    apply elem_of_cons in IH as [Heq | Hin].
    + rewrite Heq. destruct (Nat.max_spec x y) as [[_ ->] | [_ ->]].
      * apply list_elem_of_further, list_elem_of_here.
      * apply list_elem_of_here.
    + do 2 apply list_elem_of_further. exact Hin.
Qed.

Lemma py_max_Some (l : list nat) :
  l ≠ [] → ∃ m, Py.max l = Some m ∧ m ∈ l ∧ Forall (λ y, y ≤ m)%nat l.
Proof.
  destruct l as [|x r]; [done|]. intros _. exists (foldl Nat.max x r).
  split; [done|]. split; [apply foldl_max_elem|].
  destruct (foldl_max_ge r x). by constructor.
Qed.

Lemma py_index_Some (x : nat) (l : list nat) (i : nat) :
  Py.index x l = Some i →
  l !! i = Some x ∧ ∀ j y, (j < i)%nat → l !! j = Some y → y ≠ x.
Proof.
  revert i. induction l as [|y r IH]; intros i; simpl; [done|].
  destruct (decide (y = x)) as [->|Hne].
  - intros [= <-]. split; [done|]. intros; lia.
  - destruct (Py.index x r) as [k|] eqn:Hk; [|done].
    intros [= <-]. destruct (IH k eq_refl) as [Hl Hfirst]. split; [done|].
    intros [|j] z Hj; simpl.
    + by intros [= <-].
    + apply Hfirst. lia.
Qed.

Lemma py_index_elem (x : nat) (l : list nat) :
  x ∈ l → is_Some (Py.index x l).
Proof.
  induction l as [|y r IH]; [by intros ?%elem_of_nil|].
  intros Hin. simpl. destruct (decide (y = x)); [by eexists|].
  apply elem_of_cons in Hin as [->|Hin]; [done|].
  destruct (IH Hin) as [k ->]. by eexists.
Qed.


(** *** Substring tests *)

Section SequenceFacts.
Context {A : Type} `{EqDecision A}.

Lemma startswith_spec (s l : list A) :
  Py.startswith s l = true ↔ ∃ q, l = s ++ q.
Proof.
  revert l. induction s as [|a s IH]; intros l; simpl.
  - split; [intros _; by exists l | done].
  - destruct l as [|b l]; [split; [done | by intros [q ?]]|].
    destruct (decide (a = b)) as [->|Hne].
    + rewrite IH. split; intros [q Hq]; exists q; [by rewrite Hq | by injection Hq].
    + split; [done|]. intros [q Hq]. injection Hq as ??. by subst.
Qed.

Lemma contains_spec (s l : list A) :
  Py.contains s l = true ↔ ∃ p q, l = p ++ s ++ q.
Proof.
  induction l as [|b l IH]; simpl.
  - rewrite orb_false_r, startswith_spec. split.
    + intros [q Hq]. by exists [], q.
    + intros (p & q & Hpq). symmetry in Hpq.
      apply app_eq_nil in Hpq as [-> Hsq]. apply app_eq_nil in Hsq as [-> ->].
      by exists [].
  - rewrite orb_true_iff, startswith_spec, IH. split.
    + intros [[q Hq] | (p & q & Hpq)].
      * by exists [], q.
      * exists (b :: p), q. by rewrite Hpq.
    + intros (p & q & Hpq). destruct p as [|c p].
      * left. by exists q.
      * right. injection Hpq as -> Hl. by exists p, q.
Qed.

Lemma partition_None (sep l : list A) :
  Py.partition sep l = None ↔ Py.contains sep l = false.
Proof.
  induction l as [|c l IH]; simpl.
  - destruct (Py.startswith sep []); simpl; split; done.
  - destruct (Py.startswith sep (c :: l)); simpl; [split; done|].
    rewrite <- IH. destruct (Py.partition sep l); simpl; split; done.
Qed.

(** [partition] cuts at the first occurrence of the separator. *)
Lemma partition_Some (sep l p q : list A) :
  Py.partition sep l = Some (p, q) →
  l = p ++ sep ++ q ∧
  ∀ p' q', l = p' ++ sep ++ q' → (length p ≤ length p')%nat.
Proof.
  revert p. induction l as [|c l IH]; intros p; simpl.
  - destruct (Py.startswith sep []) eqn:Hs; [|done].
    intros [= <- <-]. apply startswith_spec in Hs as [q0 Hq0].
    symmetry in Hq0. apply app_eq_nil in Hq0 as [-> ->]. simpl.
    split; [done|]. intros; lia.
  - destruct (Py.startswith sep (c :: l)) eqn:Hs.
    + intros [= <- <-]. apply startswith_spec in Hs as [q0 Hq0].
      rewrite Hq0, drop_app_length. split; [done|]. intros; simpl; lia.
    + destruct (Py.partition sep l) as [[p1 q1]|] eqn:Hp; [|done]. simpl.
      intros [= <- <-]. destruct (IH p1 eq_refl) as [-> Hmin].
      split; [done|]. intros [|c' p''] q' Heq.
      * assert (Py.startswith sep (c :: p1 ++ sep ++ q1) = true); [|congruence].
        apply startswith_spec. by exists q'.
      * injection Heq as -> Heq. specialize (Hmin _ _ Heq). simpl. lia.
Qed.
End SequenceFacts.

(** [split] unfolds as the code reads: the text before the first
    separator, then the split of what follows it. *)
Lemma split_nonempty_unfold {A} `{EqDecision A} (a : A) (sep' l : list A) :
  Py.split_nonempty a sep' l =
  match Py.partition (a :: sep') l with
  | Some found => found.1 :: Py.split_nonempty a sep' found.2
  | None => [l]
  end.
Proof.
  rewrite Py.split_nonempty_equation_1. unfold Py.inspect.
  assert (Hcases : ∀ o (H : Py.partition (a :: sep') l = o),
    Py.split_nonempty_unfold_clause_1 A _ a sep' l (o ↾ H) =
    match o with
    | Some found => found.1 :: Py.split_nonempty a sep' found.2
    | None => [l]
    end) by (intros [found|] H; reflexivity).
  apply Hcases.
Qed.

Lemma chars_app (a b : string) : Py.chars (a +:+ b) = Py.chars a ++ Py.chars b.
Proof. induction a as [|c a IH]; simpl; [done | by rewrite IH]. Qed.

Lemma chars_inj (a b : string) : Py.chars a = Py.chars b → a = b.
Proof.
  revert b. induction a as [|c a IH]; intros [|d b]; simpl; try done.
  intros [= -> Hab]. by rewrite (IH b Hab).
Qed.

Lemma chars_surj (l : list ascii) : ∃ s, Py.chars s = l.
Proof.
  induction l as [|c l [s Hs]]; [by exists EmptyString|].
  exists (String c s). simpl. by rewrite Hs.
Qed.

(** [s in name] holds exactly when [name] is [pre + s + post]. *)
Lemma str_contains_spec (s name : string) :
  Py.str_contains s name = true ↔ ∃ pre post, name = pre +:+ s +:+ post.
Proof.
  unfold Py.str_contains. rewrite contains_spec. split.
  - intros (p & q & Hpq).
    destruct (chars_surj p) as [pre <-], (chars_surj q) as [post <-].
    exists pre, post. apply chars_inj. by rewrite !chars_app.
  - intros (pre & post & ->). exists (Py.chars pre), (Py.chars post).
    by rewrite !chars_app.
Qed.

Lemma any_in_spec (substrings : list string) (name : string) :
  Py.any_in substrings name = true ↔
  ∃ s, s ∈ substrings ∧ ∃ pre post, name = pre +:+ s +:+ post.
Proof.
  unfold Py.any_in. rewrite existsb_exists. split.
  - intros (s & Hin & Hs). exists s. split; [by apply list_elem_of_In|].
    by apply str_contains_spec.
  - intros (s & Hin & Hs). exists s. split; [by apply list_elem_of_In|].
    by apply str_contains_spec.
Qed.

(** ** IEEE arithmetic: adding +0 and multiplying by 1 *)

Lemma iter_pos_iter {A} (f : A → A) (p : positive) (x : A) :
  SpecFloat.iter_pos f p x = Pos.iter f x p.
Proof.
  revert x. induction p as [p IH|p IH|]; intros x; simpl.
  - rewrite !IH. by rewrite !Pos.iter_swap.
  - by rewrite !IH.
  - done.
Qed.

Lemma digits2_pos_shift (m k : positive) :
  digits2_pos (Pos.iter xO m k) = (digits2_pos m + k)%positive.
Proof.
  induction k as [|k IH] using Pos.peano_ind.
  - simpl. lia.
  - rewrite Pos.iter_succ. simpl. rewrite IH. lia.
Qed.

(** Shifting right by as many places as there are trailing zeros is exact. *)
Lemma shr_shift (m k : positive) :
  SpecFloat.iter_pos shr_1 k
    {| shr_m := Zpos (Pos.iter xO m k); shr_r := false; shr_s := false |}
  = {| shr_m := Zpos m; shr_r := false; shr_s := false |}.
Proof.
  rewrite iter_pos_iter. revert m.
  induction k as [|k IH] using Pos.peano_ind; intros m.
  - reflexivity.
  - rewrite Pos.iter_succ_r, Pos.iter_succ. simpl. apply IH.
Qed.

Lemma mul_shift (m k : positive) :
  (Pos.iter xO 1 k * m)%positive = Pos.iter xO m k.
Proof.
  induction k as [|k IH] using Pos.peano_ind.
  - reflexivity.
  - rewrite !Pos.iter_succ.
    change ((Pos.iter xO 1 k)~0 * m)%positive with ((Pos.iter xO 1 k * m)~0)%positive.
    by rewrite IH.
Qed.

Section Format.
Variables prec emax : Z.
Hypothesis prec_gt_1 : 1 < prec.

(** Rounding a representable number that was written with [k] extra
    trailing zeros gives the number back. *)
Lemma round_shifted (s : bool) (m k : positive) (e : Z) :
  bounded prec emax m e = true →
  binary_round_aux prec emax s (Zpos (Pos.iter xO m k)) (e - Zpos k) loc_Exact
  = S754_finite s m e.
Proof.
  intros Hb. unfold bounded in Hb. apply andb_true_iff in Hb as [Hc He].
  unfold canonical_mantissa in Hc. apply Z.eqb_eq in Hc.
  unfold binary_round_aux, shr_fexp. cbn [Zdigits2 shr_record_of_loc].
  rewrite digits2_pos_shift.
  replace (Z.pos (digits2_pos m + k) + (e - Z.pos k))
    with (Z.pos (digits2_pos m) + e) by lia.
  rewrite Hc. replace (e - (e - Z.pos k)) with (Z.pos k) by lia.
  cbn [shr]. rewrite shr_shift.
  cbn [shr_m loc_of_shr_record round_nearest_even Zdigits2].
  replace (e - Z.pos k + Z.pos k) with e by lia.
  rewrite Hc, Z.sub_diag. cbn [shr shr_m]. by rewrite He.
Qed.

Lemma mul_one_finite (s : bool) (m : positive) (e : Z) :
  bounded prec emax m e = true →
  SFmul prec emax (AdapterV2.float_one prec) (S754_finite s m e) = S754_finite s m e.
Proof.
  intros Hb. unfold AdapterV2.float_one. cbn [SFmul xorb].
  rewrite mul_shift.
  replace (1 - prec + e) with (e - Zpos (Z.to_pos (prec - 1))) by lia.
  by apply round_shifted.
Qed.

Lemma float_same_trans (x y z : spec_float) :
  AdapterV2.float_same x y → AdapterV2.float_same y z → AdapterV2.float_same x z.
Proof.
  unfold AdapterV2.float_same.
  destruct x, y, z; intros Hxy Hyz; try done; congruence.
Qed.

(** The floating-point formats satisfy the laws the initial values
    rely on: [x + 0.0] and [1.0 * x] are [x], except that [-0.0 + 0.0]
    is [+0.0]. *)
Global Instance ieee_laws :
  @AdapterV2.ScalarLaws spec_float (AdapterV2.ieee_scalar prec emax)
    (AdapterV2.float_valid prec emax) AdapterV2.float_same.
Proof.
  split.
  - apply float_same_trans.
  - intros x Hx. unfold AdapterV2.float_valid in *. cbn.
    by destruct x as [[]| | |].
  - intros x _. cbn. by destruct x as [[]| | |].
  - intros x Hx. unfold AdapterV2.float_valid in Hx. cbn [AdapterV2.mul
      AdapterV2.one AdapterV2.ieee_scalar].
    destruct x as [s|s| |s m e].
    + by destruct s.
    + by destruct s.
    + done.
    + cbn [valid_binary] in Hx. by rewrite mul_one_finite.
Qed.
End Format.

Global Instance Z_laws : AdapterV2.ScalarLaws Z (λ _, True) eq.
Proof.
  split; cbn.
  - intros x y z. apply eq_trans.
  - done.
  - intros x _. apply Z.add_0_r.
  - intros x _. apply Z.mul_1_l.
Qed.

(** [float_one] is the format's 1.0. *)
Example float_one_binary32 : AdapterV2.float_one 24 = SFone 24 128.
Proof. reflexivity. Qed.

Example float_one_bfloat16 : AdapterV2.float_one 8 = SFone 8 128.
Proof. reflexivity. Qed.

Example float_one_binary16 : AdapterV2.float_one 11 = SFone 11 16.
Proof. reflexivity. Qed.

(** ** lit_parrot/adapter_v2.py *)

Section AdapterV2Facts.
Import AdapterV2.

(** The loop of [mark_only_adapter_v2_as_trainable], one store at a time. *)
Lemma mark_loop_lookup {T : Type} (pred : string → bool) (l : list (string * nat))
    (st : gmap nat (Param T)) :
  NoDup (l.*2) →
  let st' := foldl (λ st '(name, param),
               alter (set_requires_grad (pred name)) param st)
               st l in
  (∀ name id, (name, id) ∈ l →
      st' !! id = set_requires_grad (pred name) <$> st !! id) ∧
  (∀ id, id ∉ l.*2 → st' !! id = st !! id).
Proof.
  revert st. induction l as [|[n i] l IH]; intros st Hnd; simpl.
  - split; [by intros ?? ?%elem_of_nil | done].
  - simpl in Hnd. apply NoDup_cons in Hnd as [Hi Hnd].
    destruct (IH (alter (set_requires_grad (pred n)) i st) Hnd)
      as [IHin IHout].
    split.
    + intros name id Hin. apply elem_of_cons in Hin as [[= -> ->] | Hin].
      * rewrite (IHout i Hi). apply lookup_alter_eq.
      * rewrite (IHin _ _ Hin). rewrite lookup_alter_ne; [done|].
        intros ->. apply Hi. apply list_elem_of_fmap. by exists (name, id).
    + intros id Hid. apply not_elem_of_cons in Hid as [Hne Hid].
      rewrite (IHout id Hid). by rewrite lookup_alter_ne.
Qed.


(** C4. After [mark_only_adapter_v2_as_trainable(model)] every named
    parameter is trainable exactly when its name contains one of the
    seven substrings of [trainable_substrings]; the parameter's tensor
    is untouched, objects that are not named parameters are untouched,
    the function returns nothing, and running it again changes nothing. *)
Theorem mark_only_adapter_v2_as_trainable_partition {T : Type} (model : Model T) :
  NoDup ((named_parameters model).*2) →
  ∃ model',
    mark_only_adapter_v2_as_trainable model = (model', tt) ∧
    named_parameters model' = named_parameters model ∧
    (∀ name id p,
        (name, id) ∈ named_parameters model → store model !! id = Some p →
        ∃ p', store model' !! id = Some p' ∧ data p' = data p ∧
          (requires_grad p' = true ↔
           ∃ s, s ∈ trainable_substrings ∧ ∃ pre post, name = pre +:+ s +:+ post)) ∧
    (∀ id, id ∉ (named_parameters model).*2 → store model' !! id = store model !! id) ∧
    mark_only_adapter_v2_as_trainable model' = (model', tt).
Proof.
  intros Hnd. eexists. split; [reflexivity|]. split; [reflexivity|].
  destruct (mark_loop_lookup (Py.any_in trainable_substrings)
              (named_parameters model) (store model) Hnd) as [Hin Hout].
  cbn [store named_parameters]. split; [|split; [exact Hout|]].
  - intros name id p Hmem Hp. rewrite (Hin _ _ Hmem), Hp. simpl.
    eexists. split; [reflexivity|]. split; [reflexivity|]. simpl.
    apply any_in_spec.
  - unfold mark_only_adapter_v2_as_trainable. cbn [store named_parameters].
    f_equal. f_equal. apply map_eq. intros id.
    match goal with |- foldl ?f ?st ?l !! _ = _ =>
      destruct (mark_loop_lookup (Py.any_in trainable_substrings) l st Hnd)
        as [Hin2 Hout2]
    end.
    destruct (decide (id ∈ (named_parameters model).*2)) as [Hid|Hid].
    + apply list_elem_of_fmap in Hid as ([name id'] & -> & Hmem). simpl.
      rewrite (Hin2 _ _ Hmem), (Hin _ _ Hmem).
      by destruct (store model !! id').
    + by rewrite (Hout2 _ Hid).
Qed.

Lemma mark_only_adapter_v2_as_trainable_partition_witness :
  ∃ model',
    mark_only_adapter_v2_as_trainable Samples.small_model = (model', tt) ∧
    named_parameters model' = named_parameters Samples.small_model ∧
    (∀ name id p,
        (name, id) ∈ named_parameters Samples.small_model →
        store Samples.small_model !! id = Some p →
        ∃ p', store model' !! id = Some p' ∧ data p' = data p ∧
          (requires_grad p' = true ↔
           ∃ s, s ∈ trainable_substrings ∧ ∃ pre post, name = pre +:+ s +:+ post)) ∧
    (∀ id, id ∉ (named_parameters Samples.small_model).*2 →
           store model' !! id = store Samples.small_model !! id) ∧
    mark_only_adapter_v2_as_trainable model' = (model', tt).
Proof.
  apply (mark_only_adapter_v2_as_trainable_partition (T:=Z) Samples.small_model).
  apply (bool_decide_unpack _). vm_compute. exact I.
Defined.


(** On the sample model the normalisation weight and the gating factor
    stay trainable and the attention weight is frozen. *)
Example mark_small_model :
  let model' := (mark_only_adapter_v2_as_trainable Samples.small_model).1 in
  requires_grad <$> store model' !! 0%nat = Some true ∧
  requires_grad <$> store model' !! 1%nat = Some false ∧
  requires_grad <$> store model' !! 2%nat = Some true.
Proof. vm_compute. done. Qed.

(** C5. [adapter_v2_state_from_state_dict] returns exactly the entries
    of its argument whose name contains one of the four substrings of
    [saved_substrings], each with its value unchanged: the key set of
    the result is that subset of the keys. An entry whose name has none
    of the four is left out, even when its name carries a normalisation
    substring, which the trainability rule accepts. *)
Theorem adapter_v2_state_from_state_dict_subset {T : Type} (state_dict : gmap string T) :
  (∀ name v,
      adapter_v2_state_from_state_dict state_dict !! name = Some v ↔
      state_dict !! name = Some v ∧
      ∃ s, s ∈ saved_substrings ∧ ∃ pre post, name = pre +:+ s +:+ post) ∧
  (∀ name,
      name ∈ dom (adapter_v2_state_from_state_dict state_dict) ↔
      name ∈ dom state_dict ∧
      ∃ s, s ∈ saved_substrings ∧ ∃ pre post, name = pre +:+ s +:+ post) ∧
  (∀ name,
      Py.any_in saved_substrings name = false →
      Py.any_in norm_substrings name = true →
      Py.any_in trainable_substrings name = true ∧
      adapter_v2_state_from_state_dict state_dict !! name = None).
Proof.
  assert (Hlookup : ∀ name v,
      adapter_v2_state_from_state_dict state_dict !! name = Some v ↔
      state_dict !! name = Some v ∧
      ∃ s, s ∈ saved_substrings ∧ ∃ pre post, name = pre +:+ s +:+ post).
  { intros name v. unfold adapter_v2_state_from_state_dict.
    rewrite map_lookup_filter_Some. simpl. by rewrite any_in_spec. }
  split; [exact Hlookup|]. split.
  - intros name. rewrite !elem_of_dom. unfold is_Some. split.
    + intros [v Hv]. apply Hlookup in Hv as [Hv Hs]. eauto.
    + intros [[v Hv] Hs]. exists v. by apply Hlookup.
  - intros name Hsaved Hnorm. split.
    + apply any_in_spec. apply any_in_spec in Hnorm as (s & Hs & Hsub).
      exists s. split; [|done].
      apply list_elem_of_In in Hs. apply list_elem_of_In.
      unfold norm_substrings, trainable_substrings in *. simpl in *. tauto.
    + destruct (adapter_v2_state_from_state_dict state_dict !! name) as [v|] eqn:Hv;
        [|done].
      apply Hlookup in Hv as [_ Hs]. apply any_in_spec in Hs. congruence.
Qed.

(** The sample state dict keeps the gating factor and the adapter bias
    and drops the attention weight and the normalisation weight. *)
Example state_dict_small :
  adapter_v2_state_from_state_dict Samples.small_state_dict
  = list_to_map [ ("transformer.h.0.attn.gating_factor", 12);
                  ("transformer.h.0.attn.attn.adapter_bias", 13) ].
Proof. vm_compute. reflexivity. Qed.

Example norm_is_trainable_but_not_saved :
  Py.any_in trainable_substrings "transformer.h.0.norm_1.weight" = true ∧
  Py.any_in saved_substrings "transformer.h.0.norm_1.weight" = false ∧
  adapter_v2_state_from_state_dict Samples.small_state_dict
    !! "transformer.h.0.norm_1.weight" = None.
Proof. by vm_compute. Qed.


(** *** The wrapped linear layer *)

Section ForwardFacts.
Context {R : Type} `{ScalarLaws R valid same}.

(** One row through [(row + zeros) ] and [ones * row]. *)
Lemma init_row (row : list R) (n : nat) :
  length row = n → Forall valid row →
  ∃ shifted scaled,
    broadcast add row (replicate n zero) = Some shifted ∧
    broadcast (λ x s, mul s x) shifted (replicate n one) = Some scaled ∧
    Forall2 same scaled row.
Proof.
  intros Hlen Hvalid. unfold broadcast. rewrite length_replicate.
  destruct (decide (length row = n)) as [_|]; [|done].
  rewrite (zip_with_replicate_r_eq _ n zero row Hlen).
  eexists _, _. split; [reflexivity|].
  rewrite length_fmap, length_replicate.
  destruct (decide (length row = n)) as [_|]; [|done].
  rewrite (zip_with_replicate_r_eq _ n one) by by rewrite length_fmap.
  split; [reflexivity|]. rewrite <- list_fmap_compose.
  apply Forall2_fmap_l. apply Forall_Forall2_diag.
  eapply Forall_impl; [exact Hvalid|]. intros x Hx. simpl.
  eapply same_trans; [apply mul_one; by apply add_zero_valid | by apply add_zero].
Qed.

Variable F_linear : list (list R) → list (list R) → option (list R)
                    → option (list (list R)).

(** Freshly wrapped, the layer computes what it computed before. *)
Lemma adapter_v2_forward_same (layer : Linear R) (input y : list (list R)) :
  linear_forward F_linear layer input = Some y →
  Forall (λ row, length row = length (data (weight layer)) ∧ Forall valid row) y →
  ∃ y', adapter_v2_new_forward F_linear
          (adapter_v2_linear_with_bias_and_scale layer) input = Some y' ∧
        Forall2 (Forall2 same) y' y.
Proof.
  intros Hy Hrows. unfold adapter_v2_new_forward, linear_forward in *.
  cbn [adapter_v2_linear_with_bias_and_scale adapter_scale adapter_bias weight bias
       data mbind option_bind].
  rewrite Hy. cbn [mbind option_bind].
  set (n := length (data (weight layer))) in *.
  clear Hy. induction y as [|row y IH].
  - exists []. by split.
  - apply Forall_cons in Hrows as [[Hlen Hvalid] Hrows].
    destruct (IH Hrows) as (y' & Hy' & Hsame).
    destruct (init_row row n Hlen Hvalid) as (shifted & scaled & Hs1 & Hs2 & Hs3).
    exists (scaled :: y'). split; [|by constructor].
    apply bind_Some in Hy' as (sh & Hsh & Hy'). rewrite mapM_Some in Hsh, Hy'.
    apply bind_Some. exists (shifted :: sh). split.
    + apply mapM_Some. by constructor.
    + apply mapM_Some. by constructor.
Qed.
End ForwardFacts.


(** C10. [adapter_v2_linear_with_bias_and_scale] attaches an
    [adapter_bias] of zeros and an [adapter_scale] of ones, both as long
    as the weight matrix has rows and both trainable, leaves weight and
    bias alone and rebinds [forward]; and on every input on which the
    plain layer returns [y] (rows as wide as the layer's output), the
    wrapped layer returns a tensor that is [y] entry for entry, in any
    arithmetic in which [x + 0] and [1 * x] are [x]. *)
Theorem adapter_v2_linear_output_preserved {R : Type} `{ScalarLaws R valid same}
    (F_linear : list (list R) → list (list R) → option (list R)
                → option (list (list R)))
    (layer : Linear R) (input y : list (list R)) :
  forward layer = LinearForward →
  call F_linear layer input = Some y →
  Forall (λ row, length row = length (data (weight layer)) ∧ Forall valid row) y →
  let layer' := adapter_v2_linear_with_bias_and_scale layer in
  let n := length (data (weight layer)) in
  adapter_bias layer' = Some {| data := replicate n zero; requires_grad := true |} ∧
  adapter_scale layer' = Some {| data := replicate n one; requires_grad := true |} ∧
  weight layer' = weight layer ∧
  bias layer' = bias layer ∧
  ∃ y', call F_linear layer' input = Some y' ∧ Forall2 (Forall2 same) y' y.
Proof.
  intros Hfwd Hcall Hrows layer' n.
  split; [reflexivity|]. split; [reflexivity|].
  split; [reflexivity|]. split; [reflexivity|].
  unfold call in Hcall. rewrite Hfwd in Hcall.
  exact (adapter_v2_forward_same F_linear layer input y Hcall Hrows).
Qed.

(** In binary32 the layer of the sample yields [-3.0; -0.0] before the
    wrapping and [-3.0; +0.0] after it. *)
Lemma adapter_v2_linear_output_preserved_witness :
  let layer' := adapter_v2_linear_with_bias_and_scale Samples.f32_layer in
  adapter_bias layer'
    = Some {| data := [Samples.f32_pos_0; Samples.f32_pos_0]; requires_grad := true |} ∧
  adapter_scale layer'
    = Some {| data := [float_one 24; float_one 24]; requires_grad := true |} ∧
  weight layer' = weight Samples.f32_layer ∧
  bias layer' = bias Samples.f32_layer ∧
  ∃ y', call sample_linear layer' Samples.f32_input = Some y' ∧
        Forall2 (Forall2 float_same) y' [[Samples.f32_neg_3; Samples.f32_neg_0]].
Proof.
  apply (adapter_v2_linear_output_preserved
           (H0 := ieee_laws 24 128 eq_refl) sample_linear
           Samples.f32_layer Samples.f32_input
           [[Samples.f32_neg_3; Samples.f32_neg_0]]).
  - reflexivity.
  - vm_compute. reflexivity.
  - repeat constructor.
Defined.

Example f32_layer_before :
  call sample_linear Samples.f32_layer Samples.f32_input
  = Some [[Samples.f32_neg_3; Samples.f32_neg_0]].
Proof. vm_compute. reflexivity. Qed.

Example f32_layer_after :
  call sample_linear (adapter_v2_linear_with_bias_and_scale Samples.f32_layer)
    Samples.f32_input
  = Some [[Samples.f32_neg_3; Samples.f32_pos_0]].
Proof. vm_compute. reflexivity. Qed.

(** Every IEEE format: the wrapped layer returns the plain layer's
    floats, a negative zero becoming a positive one. *)
Lemma adapter_v2_forward_same_ieee (prec emax : Z)
    (F_linear : list (list spec_float) → list (list spec_float)
                → option (list spec_float) → option (list (list spec_float)))
    (layer : Linear spec_float) (input y : list (list spec_float)) :
  1 < prec →
  linear_forward F_linear layer input = Some y →
  Forall (λ row, length row = length (data (weight layer)) ∧
                 Forall (float_valid prec emax) row) y →
  ∃ y', adapter_v2_new_forward (H := ieee_scalar prec emax) F_linear
          (adapter_v2_linear_with_bias_and_scale (H := ieee_scalar prec emax) layer)
          input = Some y' ∧
        Forall2 (Forall2 float_same) y' y.
Proof.
  intros Hprec. exact (adapter_v2_forward_same (H0 := ieee_laws prec emax Hprec)
                         F_linear layer input y).
Qed.

(** Exact arithmetic: the outputs are equal. *)
Lemma adapter_v2_forward_same_Z
    (F_linear : list (list Z) → list (list Z) → option (list Z)
                → option (list (list Z)))
    (layer : Linear Z) (input y : list (list Z)) :
  linear_forward F_linear layer input = Some y →
  Forall (λ row, length row = length (data (weight layer))) y →
  adapter_v2_new_forward F_linear (adapter_v2_linear_with_bias_and_scale layer) input
  = Some y.
Proof.
  intros Hy Hrows.
  destruct (adapter_v2_forward_same (H0 := Z_laws) F_linear layer input y Hy)
    as (y' & Hy' & Hsame).
  { eapply Forall_impl; [exact Hrows|]. intros row Hr. split; [done|].
    by apply Forall_forall. }
  rewrite Hy'. f_equal.
  apply list_eq_Forall2. eapply Forall2_impl; [exact Hsame|].
  intros r1 r2 Hr. by apply list_eq_Forall2.
Qed.
End AdapterV2Facts.
(** ** finetune/adapter.py *)

Section FinetuneFacts.
Import Finetune.

(** C8. On a non-empty collection [get_longest_seq_length] returns a pair
    [(len, ix)]: [len] is the greatest [input_ids] length of the
    collection, the example at position [ix] has that length, and every
    example before [ix] is strictly shorter (so [ix] is the first
    position of a longest example). *)
Theorem get_longest_seq_length_first_max (data : list Example) :
  data ≠ [] →
  ∃ len ix,
    get_longest_seq_length data = Some (len, ix) ∧
    (∃ e, data !! ix = Some e ∧ length (input_ids e) = len) ∧
    (∀ j e, data !! j = Some e → (length (input_ids e) ≤ len)%nat) ∧
    (∀ j e, (j < ix)%nat → data !! j = Some e → (length (input_ids e) < len)%nat).
Proof.
  intros Hne. unfold get_longest_seq_length.
  set (lengths := map (λ d, length (input_ids d)) data).
  assert (Hlen : lengths ≠ []) by (subst lengths; by destruct data).
  destruct (py_max_Some lengths Hlen) as (m & Hmax & Hin & Hle).
  destruct (py_index_elem m lengths Hin) as [ix Hix].
  exists m, ix. rewrite Hmax. simpl. rewrite Hix. simpl. split; [done|].
  destruct (py_index_Some _ _ _ Hix) as [Hat Hfirst].
  assert (Hbound : ∀ j e, data !! j = Some e → (length (input_ids e) ≤ m)%nat).
  { intros j e Hj. rewrite Forall_lookup in Hle. apply (Hle j).
    subst lengths. by rewrite list_lookup_fmap, Hj. }
  split; [|split; [exact Hbound|]].
  - subst lengths. rewrite list_lookup_fmap in Hat.
    destruct (data !! ix) as [e|]; [|done]. exists e. split; [done|].
    by injection Hat.
  - intros j e Hj Hlook.
    assert (length (input_ids e) ≠ m).
    { apply (Hfirst j); [done|]. subst lengths. by rewrite list_lookup_fmap, Hlook. }
    specialize (Hbound j e Hlook). lia.
Qed.

Lemma get_longest_seq_length_first_max_witness :
  ∃ len ix,
    get_longest_seq_length Samples.three_examples = Some (len, ix) ∧
    (∃ e, Samples.three_examples !! ix = Some e ∧ length (input_ids e) = len) ∧
    (∀ j e, Samples.three_examples !! j = Some e → (length (input_ids e) ≤ len)%nat) ∧
    (∀ j e, (j < ix)%nat → Samples.three_examples !! j = Some e →
            (length (input_ids e) < len)%nat).
Proof. apply (get_longest_seq_length_first_max Samples.three_examples). done. Defined.

(** Examples 1 and 2 tie for the longest; the first of them is returned. *)
Example get_longest_seq_length_tie :
  get_longest_seq_length Samples.three_examples = Some (3%nat, 1%nat).
Proof. reflexivity. Qed.

(** The empty collection raises ([max] of an empty list). *)
Lemma get_longest_seq_length_empty : get_longest_seq_length [] = None.
Proof. reflexivity. Qed.


(** *** [get_batch] *)

Lemma pad_right_Some (max_len : nat) (s : list Z) (pad : Z) (r : list Z) :
  pad_right max_len s pad = Some r →
  length r = max_len ∧ ∀ p v, r !! p = Some v → v = default pad (s !! p).
Proof.
  unfold pad_right.
  destruct (Z.ltb_spec (Z.of_nat max_len - Z.of_nat (length s)) 0) as [|Hn]; [done|].
  intros [= <-]. split.
  - rewrite length_app, length_replicate. lia.
  - intros p v Hp. apply lookup_app_Some in Hp as [Hp | [Hge Hp]].
    + by rewrite Hp.
    + apply lookup_replicate in Hp as [-> _].
      by rewrite (lookup_ge_None_2 s p).
Qed.

Lemma slice_to_length {A} (m : Z) (l : list A) :
  length (Py.slice_to m l) = sliced_width m (length l).
Proof. unfold Py.slice_to, sliced_width. destruct (m <? 0); apply length_take. Qed.

Lemma slice_to_lookup {A} (m : Z) (l : list A) (p : nat) (v : A) :
  Py.slice_to m l !! p = Some v → l !! p = Some v.
Proof.
  unfold Py.slice_to. destruct (m <? 0); intros H; by apply lookup_take_Some in H as [? _].
Qed.

Lemma truncate_rows (cap : option Z) (rows : list (list Z)) (n : nat) :
  Forall (λ r, length r = n) rows →
  length (truncate cap rows) = length rows ∧
  Forall (λ r, length r = truncated_width cap n) (truncate cap rows) ∧
  ∀ j r' p v, truncate cap rows !! j = Some r' → r' !! p = Some v →
    ∃ r, rows !! j = Some r ∧ r !! p = Some v.
Proof.
  intros Hrows. unfold truncate, truncated_width.
  destruct cap as [m|]; [destruct (Py.truthy (Some m))|].
  - split; [by rewrite length_map|]. split.
    + apply Forall_fmap. eapply Forall_impl; [exact Hrows|].
      intros r <-. apply slice_to_length.
    + intros j r' p v Hj Hp. change (map (Py.slice_to m) rows) with (Py.slice_to m <$> rows) in Hj.
      rewrite list_lookup_fmap in Hj.
      destruct (rows !! j) as [r|]; [|done]. injection Hj as <-.
      exists r. split; [done|]. by eapply slice_to_lookup.
  - split; [done|]. split; [done|]. eauto.
  - split; [done|]. split; [done|]. eauto.
Qed.

Lemma truncated_width_cap (c : Z) (n : nat) :
  0 < c → (Z.of_nat (truncated_width (Some c) n) ≤ c)%Z.
Proof.
  intros Hc. unfold truncated_width, sliced_width, Py.truthy.
  destruct (Z.eqb_spec c 0); [lia|]. simpl.
  destruct (Z.ltb_spec c 0); lia.
Qed.

(** Rows built by [pad_right] from the selected samples. *)
Lemma padded_rows {B} (f : B → list Z) (max_len : nat) (pad : Z)
    (samples : list B) (rows : list (list Z)) :
  mapM (λ s, pad_right max_len s pad) (map f samples) = Some rows →
  length rows = length samples ∧
  Forall (λ r, length r = max_len) rows ∧
  ∀ j e r p v, samples !! j = Some e → rows !! j = Some r → r !! p = Some v →
    v = default pad (f e !! p).
Proof.
  intros H%mapM_Some_1. split; [|split].
  - apply Forall2_length in H. by rewrite length_map in H.
  - apply Forall_lookup. intros j r Hr.
    destruct (Forall2_lookup_r _ _ _ _ _ H Hr) as (s & _ & Hs).
    by apply pad_right_Some in Hs as [? _].
  - intros j e r p v He Hr Hp.
    assert (Hs : map f samples !! j = Some (f e)).
    { change (map f samples) with (f <$> samples). by rewrite list_lookup_fmap, He. }
    pose proof (Forall2_lookup_lr _ _ _ _ _ _ H Hs Hr) as Hpad.
    apply pad_right_Some in Hpad as [_ Hpad]. by apply Hpad.
Qed.


Lemma randint_length (rng : nat → nat) (high : nat) (size : Z) (ix : list nat) :
  randint rng high size = Some ix →
  length ix = Z.to_nat size ∧ Forall (λ i, i < high)%nat ix.
Proof.
  unfold randint. destruct (size <? 0); [done|].
  destruct (decide (high = 0%nat)); [done|]. intros [= <-]. split.
  - by rewrite length_map, length_seq.
  - apply Forall_fmap, Forall_forall. intros k _. simpl.
    by apply Nat.mod_upper_bound.
Qed.

Lemma batch_indices_length (rng : nat → nat) (data : list Example)
    (micro_batch_size : Z) (longest_seq_ix : option nat) (ix : list nat) :
  batch_indices rng data micro_batch_size longest_seq_ix = Some ix →
  length ix = Z.to_nat micro_batch_size.
Proof.
  unfold batch_indices.
  destruct (randint rng (length data) micro_batch_size) as [ix0|] eqn:Hr; [|done].
  apply randint_length in Hr as [Hl _]. simpl.
  destruct longest_seq_ix as [l|]; [|by intros [= <-]].
  destruct ix0; [done|]. by intros [= <-].
Qed.

(** C6 (as amended). Every batch [(x, y)] that [get_batch] returns has
    one row per sampled position; all rows of [x] and all rows of [y]
    have one common width; each row agrees with its example where the
    example has a token and holds the pad value beyond it (0 in the
    inputs, -1 in the labels); and under a positive [max_seq_length]
    that common width is at most the cap. *)
Theorem get_batch_padded_rows (rng : nat → nat) (data : list Example)
    (micro_batch_size : Z) (max_seq_length : option Z)
    (longest_seq_ix : option nat) (x y : list (list Z)) :
  get_batch rng data micro_batch_size max_seq_length longest_seq_ix = Some (x, y) →
  ∃ (ix : list nat) (width : nat),
    batch_indices rng data micro_batch_size longest_seq_ix = Some ix ∧
    length ix = Z.to_nat micro_batch_size ∧
    length x = length ix ∧ length y = length ix ∧
    Forall (λ r, length r = width) x ∧
    Forall (λ r, length r = width) y ∧
    (∀ j i e rx ry,
        ix !! j = Some i → data !! i = Some e →
        x !! j = Some rx → y !! j = Some ry →
        (∀ p v, rx !! p = Some v → v = default 0 (input_ids e !! p)) ∧
        (∀ p v, ry !! p = Some v → v = default (-1) (labels e !! p))) ∧
    (∀ c, max_seq_length = Some c → 0 < c → Z.of_nat width ≤ c).
Proof.
  unfold get_batch. intros H.
  destruct (batch_indices rng data micro_batch_size longest_seq_ix) as [ix|] eqn:Hix;
    [|done]. simpl in H.
  destruct (mapM (λ i, data !! i) ix) as [samples|] eqn:Hsamples; [|done]. simpl in H.
  destruct (Py.max (map length (map input_ids samples))) as [max_len|]; [|done].
  simpl in H.
  destruct (mapM _ (map input_ids samples)) as [x0|] eqn:Hx; [|done]. simpl in H.
  destruct (mapM _ (map labels samples)) as [y0|] eqn:Hy; [|done]. simpl in H.
  injection H as <- <-.
  apply padded_rows in Hx as (Hlx & Hwx & Hvx).
  apply padded_rows in Hy as (Hly & Hwy & Hvy).
  destruct (truncate_rows max_seq_length x0 max_len Hwx) as (Htlx & Htwx & Htvx).
  destruct (truncate_rows max_seq_length y0 max_len Hwy) as (Htly & Htwy & Htvy).
  apply mapM_Some_1 in Hsamples.
  pose proof (Forall2_length _ _ _ Hsamples) as Hls.
  exists ix, (truncated_width max_seq_length max_len).
  split; [done|]. split; [by eapply batch_indices_length|].
  split; [congruence|]. split; [congruence|]. split; [done|]. split; [done|].
  split.
  - intros j i e rx ry Hj Hi Hrx Hry.
    assert (He : samples !! j = Some e).
    { destruct (Forall2_lookup_l _ _ _ _ _ Hsamples Hj) as (e' & He' & Hd).
      simpl in Hd. congruence. }
    split; intros p v Hp.
    + destruct (Htvx _ _ _ _ Hrx Hp) as (r & Hr & Hrp). by eapply Hvx.
    + destruct (Htvy _ _ _ _ Hry Hp) as (r & Hr & Hrp). by eapply Hvy.
  - intros c -> Hc. by apply truncated_width_cap.
Qed.


Lemma get_batch_padded_rows_witness :
  ∃ (ix : list nat) (width : nat),
    batch_indices Samples.counting_rng Samples.three_examples 2 None = Some ix ∧
    length ix = Z.to_nat 2 ∧
    length [[1; 2]; [3; 4]] = length ix ∧ length [[-1; 2]; [-1; -1]] = length ix ∧
    Forall (λ r, length r = width) [[1; 2]; [3; 4]] ∧
    Forall (λ r, length r = width) [[-1; 2]; [-1; -1]] ∧
    (∀ j i e rx ry,
        ix !! j = Some i → Samples.three_examples !! i = Some e →
        [[1; 2]; [3; 4]] !! j = Some rx → [[-1; 2]; [-1; -1]] !! j = Some ry →
        (∀ p v, rx !! p = Some v → v = default 0 (input_ids e !! p)) ∧
        (∀ p v, ry !! p = Some v → v = default (-1) (labels e !! p))) ∧
    (∀ c, Some 2 = Some c → 0 < c → Z.of_nat width ≤ c).
Proof.
  apply (get_batch_padded_rows Samples.counting_rng Samples.three_examples 2
           (Some 2) None).
  reflexivity.
Defined.

(** Padding at work: the short example is filled up to the longest of
    the batch, with 0 in the inputs and -1 in the labels. *)
Example get_batch_pads :
  get_batch Samples.counting_rng Samples.three_examples 2 None None
  = Some ([[1; 2; 0]; [3; 4; 5]], [[-1; 2; -1]; [-1; -1; 5]]).
Proof. reflexivity. Qed.

(** [get_batch] does return a batch on well-formed input: a non-empty
    collection whose label rows are as long as their input rows, a
    positive batch size and a forced position inside the collection. *)
Lemma get_batch_total (rng : nat → nat) (data : list Example)
    (micro_batch_size : Z) (max_seq_length : option Z)
    (longest_seq_ix : option nat) :
  data ≠ [] → 0 < micro_batch_size →
  Forall (λ e, length (labels e) = length (input_ids e)) data →
  (∀ l, longest_seq_ix = Some l → (l < length data)%nat) →
  is_Some (get_batch rng data micro_batch_size max_seq_length longest_seq_ix).
Proof.
  intros Hne Hmbs Hlab Hl. unfold get_batch, batch_indices, randint.
  destruct (Z.ltb_spec micro_batch_size 0); [lia|].
  destruct (decide (length data = 0%nat)) as [Hz|Hnz]; [by destruct data|].
  simpl.
  set (ix0 := map _ (seq 0 (Z.to_nat micro_batch_size))).
  assert (Hix0 : Forall (λ i, i < length data)%nat ix0).
  { apply Forall_fmap, Forall_forall. intros k _. simpl. by apply Nat.mod_upper_bound. }
  assert (Hlen0 : ix0 ≠ []).
  { subst ix0. destruct (Z.to_nat micro_batch_size) eqn:E; [lia|done]. }
  assert (∃ ix, (match longest_seq_ix with
                 | None => Some ix0
                 | Some l => match ix0 with [] => None | _ :: ix' => Some (l :: ix') end
                 end) = Some ix ∧ ix ≠ [] ∧ Forall (λ i, i < length data)%nat ix)
    as (ix & -> & Hixne & Hix).
  { destruct longest_seq_ix as [l|]; [|by eauto].
    destruct ix0 as [|i0 ix']; [done|]. eexists. split; [done|]. split; [done|].
    apply Forall_cons in Hix0 as [_ ?]. constructor; [by apply Hl | done]. }
  simpl.
  assert (Hs : is_Some (mapM (λ i, data !! i) ix)).
  { apply mapM_is_Some. eapply Forall_impl; [exact Hix|].
    intros i Hi. simpl. by apply lookup_lt_is_Some. }
  destruct Hs as [samples Hsamples]. rewrite Hsamples. simpl.
  apply mapM_Some_1 in Hsamples.
  assert (Hsne : samples ≠ []).
  { apply Forall2_length in Hsamples. destruct samples, ix; done. }
  assert (Hsub : Forall (λ e, length (labels e) = length (input_ids e)) samples).
  { apply Forall_lookup. intros j e He.
    destruct (Forall2_lookup_r _ _ _ _ _ Hsamples He) as (i & _ & Hi). simpl in Hi.
    rewrite Forall_lookup in Hlab. by eapply Hlab. }
  destruct (py_max_Some (map length (map input_ids samples))) as (m & -> & _ & Hm).
  { by destruct samples. }
  simpl.
  assert (Hx : is_Some (mapM (λ s, pad_right m s 0) (map input_ids samples))).
  { apply mapM_is_Some, Forall_fmap, Forall_lookup. intros j e He. simpl.
    unfold pad_right.
    assert (length (input_ids e) ≤ m)%nat.
    { rewrite Forall_lookup in Hm. apply (Hm j).
      change (map length (map input_ids samples)) with (length <$> (input_ids <$> samples)).
      by rewrite !list_lookup_fmap, He. }
    destruct (Z.ltb_spec (Z.of_nat m - Z.of_nat (length (input_ids e))) 0); [lia|done]. }
  assert (Hy : is_Some (mapM (λ s, pad_right m s (-1)) (map labels samples))).
  { apply mapM_is_Some, Forall_fmap, Forall_lookup. intros j e He. simpl.
    unfold pad_right.
    assert (length (labels e) ≤ m)%nat.
    { rewrite Forall_lookup in Hsub. rewrite (Hsub j e He).
      rewrite Forall_lookup in Hm. apply (Hm j).
      change (map length (map input_ids samples)) with (length <$> (input_ids <$> samples)).
      by rewrite !list_lookup_fmap, He. }
    destruct (Z.ltb_spec (Z.of_nat m - Z.of_nat (length (labels e))) 0); [lia|done]. }
  destruct Hx as [x ->], Hy as [y ->]. simpl. by eexists.
Qed.

(** A cap of 0 is falsy under [if max_seq_length:], so nothing is cut,
    and a negative cap drops columns from the right: in both cases the
    rows are longer than the number given as the cap. The claim "no row
    exceeds the configured cap" therefore fails for caps that are not
    positive. *)
Lemma get_batch_cap_counterexample :
  get_batch Samples.counting_rng Samples.three_examples 2 (Some 0) None
    = Some ([[1; 2; 0]; [3; 4; 5]], [[-1; 2; -1]; [-1; -1; 5]]) ∧
  get_batch Samples.counting_rng Samples.three_examples 2 (Some (-1)) None
    = Some ([[1; 2]; [3; 4]], [[-1; 2]; [-1; -1]]) ∧
  ¬ (∀ rng data micro_batch_size c longest_seq_ix x y,
       data ≠ [] →
       get_batch rng data micro_batch_size (Some c) longest_seq_ix = Some (x, y) →
       Forall (λ r, Z.of_nat (length r) ≤ c) x ∧
       Forall (λ r, Z.of_nat (length r) ≤ c) y).
Proof.
  split; [reflexivity|]. split; [reflexivity|].
  intros H.
  destruct (H Samples.counting_rng Samples.three_examples 2 0 None
              [[1; 2; 0]; [3; 4; 5]] [[-1; 2; -1]; [-1; -1; 5]]) as [Hx _];
    [done | reflexivity |].
  apply Forall_cons in Hx as [Hx _]. simpl in Hx. lia.
Qed.


(** *** The [train] loop *)

Lemma every_events (acc : bool) (k : Z) (es : list Event) (st st' : LoopState) :
  every acc k es st = Some st' →
  step_count st' = step_count st ∧
  (events st' = events st ∨ (acc = false ∧ events st' = events st ++ es)).
Proof.
  unfold every. destruct acc; [intros [= <-]; auto|].
  destruct (Py.mod_ (step_count st) k) as [r|]; [|done]. simpl.
  destruct (r =? 0); intros [= <-]; auto.
Qed.

Lemma occurrences_app (e : Event) (es es' : list Event) :
  occurrences e (es ++ es') = (occurrences e es + occurrences e es')%nat.
Proof. unfold occurrences. by rewrite filter_app, length_app. Qed.

Lemma quiet_app (es es' : list Event) : quiet es → quiet es' → quiet (es ++ es').
Proof.
  unfold quiet. intros (?&?&?) (?&?&?). rewrite !occurrences_app. lia.
Qed.

(** One iteration, seen through its effects: what it appends to the
    trace is a quiet prefix, the three stepping events exactly when the
    iteration is not accumulating, and a quiet suffix. *)
Lemma train_iter_effects (ta : TrainArgs) (ea : EvalArgs)
    (devices iter_num : Z) (st st' : LoopState) :
  train_iter ta ea devices iter_num st = Some st' →
  ∃ acc tail,
    is_accumulating ta devices iter_num = Some acc ∧
    quiet tail ∧
    events st' = events st
      ++ [GetBatch iter_num (bool_decide (iter_num = 1)); ForwardBackward iter_num acc]
      ++ (if acc then [] else [OptimizerStep; ZeroGrad; SchedulerStep])
      ++ tail ∧
    step_count st' = (if acc then step_count st else step_count st + 1).
Proof.
  unfold train_iter. intros H.
  destruct (is_accumulating ta devices iter_num) as [acc|]; [|done]. simpl in H.
  destruct (Py.mod_ iter_num (log_interval ta)) as [r|]; [|done]. simpl in H.
  match type of H with
  | context [every acc (interval ea) _ ?s] => set (st1 := s) in H
  end.
  destruct (every acc (interval ea) [Validate; Barrier] st1) as [st2|] eqn:H2; [|done].
  simpl in H.
  apply every_events in H2 as [Hc2 He2]. apply every_events in H as [Hc3 He3].
  assert (∃ t1, quiet t1 ∧ events st1 = events st
      ++ [GetBatch iter_num (bool_decide (iter_num = 1)); ForwardBackward iter_num acc]
      ++ (if acc then [] else [OptimizerStep; ZeroGrad; SchedulerStep]) ++ t1
      ∧ step_count st1 = (if acc then step_count st else step_count st + 1))
    as (t1 & Hq1 & He1 & Hc1).
  { subst st1. destruct acc, (r =? 0); simpl;
      (eexists; split; [|split; [rewrite <- ?app_assoc; simpl; reflexivity|done]]);
      by repeat split. }
  assert (∃ t2, quiet t2 ∧ events st2 = events st1 ++ t2) as (t2 & Hq2 & He2').
  { destruct He2 as [->|[_ ->]].
    - exists []. split; [by repeat split|]. by rewrite app_nil_r.
    - eexists. split; [|done]. by repeat split. }
  assert (∃ t3, quiet t3 ∧ events st' = events st2 ++ t3) as (t3 & Hq3 & He3').
  { destruct He3 as [->|[_ ->]].
    - exists []. split; [by repeat split|]. by rewrite app_nil_r.
    - eexists. split; [|done]. by repeat split. }
  exists acc, (t1 ++ t2 ++ t3). split; [done|].
  split; [by repeat apply quiet_app|]. split.
  - rewrite He3', He2', He1. by rewrite <- !app_assoc.
  - congruence.
Qed.

Lemma is_accumulating_spec (ta : TrainArgs) (devices iter_num g : Z) (acc : bool) :
  gradient_accumulation_iters ta devices = Some g →
  is_accumulating ta devices iter_num = Some acc →
  g ≠ 0 ∧ (acc = true ↔ iter_num mod g ≠ 0).
Proof.
  unfold is_accumulating, Py.mod_. intros ->. simpl.
  destruct (Z.eqb_spec g 0); [done|]. simpl. intros [= <-]. split; [done|].
  destruct (Z.eqb_spec (iter_num mod g) 0) as [->|]; simpl; split; done.
Qed.


Lemma occurrences_elem (e : Event) (es : list Event) :
  e ∈ es ↔ (0 < occurrences e es)%nat.
Proof.
  unfold occurrences. induction es as [|e' es IH]; simpl.
  - split; [by intros ?%elem_of_nil | lia].
  - rewrite elem_of_cons, filter_cons. destruct (decide (e' = e)) as [->|Hne]; simpl.
    + split; [lia | by left].
    + rewrite <- IH. split; [by intros [->|?] | by right].
Qed.

(** C3. An iteration of the standard [train] loop that runs to its end
    is accumulating exactly when [iter_num mod g] is not 0, where [g] is
    the accumulation count; the forward/backward pass runs under that
    flag; an accumulating iteration performs no optimizer step, no
    gradient clearing and no scheduler step and leaves [step_count]
    alone, every other iteration performs exactly one of each and adds 1
    to [step_count]. With 2 devices, global batch 64 and micro batch 4
    the count is 8 and the optimizer steps on the iterations divisible
    by 8 and on no other. *)
Theorem train_iter_accumulation (ta : TrainArgs) (ea : EvalArgs)
    (devices g iter_num : Z) (st st' : LoopState) :
  gradient_accumulation_iters ta devices = Some g →
  train_iter ta ea devices iter_num st = Some st' →
  ∃ acc new,
    is_accumulating ta devices iter_num = Some acc ∧
    (acc = true ↔ iter_num mod g ≠ 0) ∧
    events st' = events st ++ new ∧
    ForwardBackward iter_num acc ∈ new ∧
    occurrences OptimizerStep new = (if acc then 0 else 1)%nat ∧
    occurrences ZeroGrad new = (if acc then 0 else 1)%nat ∧
    occurrences SchedulerStep new = (if acc then 0 else 1)%nat ∧
    step_count st' = (if acc then step_count st else step_count st + 1) ∧
    (devices = 2 → global_batch_size ta = 64 → micro_batch_size ta = 4 →
     g = 8 ∧ (OptimizerStep ∈ new ↔ iter_num mod 8 = 0)).
Proof.
  intros Hg Hrun.
  destruct (train_iter_effects _ _ _ _ _ _ Hrun) as (acc & tail & Hacc & Hq & Hev & Hsc).
  destruct (is_accumulating_spec _ _ _ _ _ Hg Hacc) as [Hg0 Hiff].
  destruct Hq as (Hq1 & Hq2 & Hq3).
  eexists acc, _. split; [done|]. split; [done|]. split; [exact Hev|].
  assert (Hcount : ∀ e, e ∈ [OptimizerStep; ZeroGrad; SchedulerStep] →
    occurrences e tail = 0%nat →
    occurrences e ([GetBatch iter_num (bool_decide (iter_num = 1));
                    ForwardBackward iter_num acc]
        ++ (if acc then [] else [OptimizerStep; ZeroGrad; SchedulerStep]) ++ tail)
    = (if acc then 0 else 1)%nat).
  { intros e He Ht. rewrite !occurrences_app, Ht.
    destruct acc; set_unfold in He; destruct He as [->|[->|[->|[]]]]; reflexivity. }
  split; [apply elem_of_app; left; repeat constructor|].
  split; [apply Hcount; [repeat constructor|done]|].
  split; [apply Hcount; [repeat constructor|done]|].
  split; [apply Hcount; [repeat constructor|done]|].
  split; [done|].
  intros -> Hgbs Hmbs. unfold gradient_accumulation_iters, Py.floordiv in Hg.
  rewrite Hgbs, Hmbs in Hg. simpl in Hg. injection Hg as <-.
  split; [reflexivity|].
  rewrite occurrences_elem, Hcount; [|repeat constructor|done].
  change (64 / 8) with 8 in Hiff. destruct acc.
  - split; [lia|]. intros Hz. by apply Hiff in Hz.
  - split; [|lia]. intros _. destruct (decide (iter_num mod 8 = 0)) as [|Hne]; [done|].
    by apply Hiff in Hne.
Qed.

Lemma train_iter_accumulation_witness :
  ∃ acc new,
    is_accumulating Samples.default_train_args 2 16 = Some acc ∧
    (acc = true ↔ 16 mod 8 ≠ 0) ∧
    events (emit [GetBatch 16 false; ForwardBackward 16 false;
                  OptimizerStep; ZeroGrad; SchedulerStep; Log 16 1]
              {| step_count := 1; events := [Validate] |})
      = events Samples.fresh_loop ++ new ∧
    ForwardBackward 16 acc ∈ new ∧
    occurrences OptimizerStep new = (if acc then 0 else 1)%nat ∧
    occurrences ZeroGrad new = (if acc then 0 else 1)%nat ∧
    occurrences SchedulerStep new = (if acc then 0 else 1)%nat ∧
    step_count (emit [GetBatch 16 false; ForwardBackward 16 false;
                      OptimizerStep; ZeroGrad; SchedulerStep; Log 16 1]
                  {| step_count := 1; events := [Validate] |})
      = (if acc then step_count Samples.fresh_loop
         else step_count Samples.fresh_loop + 1) ∧
    ((2 : Z) = 2 → global_batch_size Samples.default_train_args = 64 →
     micro_batch_size Samples.default_train_args = 4 →
     (8 : Z) = 8 ∧ (OptimizerStep ∈ new ↔ 16 mod 8 = 0)).
Proof.
  apply (train_iter_accumulation Samples.default_train_args Samples.default_eval_args
           2 8 16 Samples.fresh_loop); reflexivity.
Defined.


(** The iterations 8 and 16 step, the ones in between accumulate. *)
Example train_loop_16 :
  ∃ st, train_loop Samples.default_train_args Samples.default_eval_args 2 16 1
          Samples.fresh_loop = Some st ∧
        step_count st = 2 ∧
        occurrences OptimizerStep (events st) = 2%nat ∧
        ForwardBackward 7 true ∈ events st ∧
        ForwardBackward 8 false ∈ events st.
Proof.
  eexists. split; [vm_compute; reflexivity|].
  split; [reflexivity|]. split; [reflexivity|]. split; set_solver.
Qed.




(*C3*)
End FinetuneFacts.

(** ** generate_adapter.py *)

Section GenerateAdapterFacts.
Import GenerateAdapter.

Lemma print_response_found (output before after : Py.str) :
  Py.partition response_marker output = Some (before, after) →
  main output = Printed (Py.strip (up_to_marker after)).
Proof.
  intros Hp. unfold main, up_to_marker.
  change (Py.split response_marker output)
    with (Some (Py.split_nonempty 35%N (tail response_marker) output)).
  rewrite split_nonempty_unfold.
  change (35%N :: tail response_marker) with response_marker.
  rewrite Hp. cbn [fst snd lookup list_lookup].
  rewrite split_nonempty_unfold.
  change (35%N :: tail response_marker) with response_marker.
  by destruct (Py.partition response_marker after) as [found|].
Qed.

Lemma print_response_missing (output : Py.str) :
  Py.partition response_marker output = None →
  main output = IndexError.
Proof.
  intros Hp. unfold main.
  change (Py.split response_marker output)
    with (Some (Py.split_nonempty 35%N (tail response_marker) output)).
  rewrite split_nonempty_unfold.
  change (35%N :: tail response_marker) with response_marker.
  by rewrite Hp.
Qed.

(** C7 (as amended). When the decoded text contains the marker, it is
    [before + "### Response:" + after] with the marker's first
    occurrence at the end of [before], and what is printed is [after]
    cut at its next marker (all of [after] when it has none) and
    stripped of surrounding whitespace. When the text does not contain
    the marker, the subscript [[1]] raises [IndexError]: nothing checks
    for the marker before. *)
Theorem print_response_extracts (output : Py.str) :
  if Py.contains response_marker output then
    ∃ before after,
      output = before ++ response_marker ++ after ∧
      (∀ p q, output = p ++ response_marker ++ q → (length before ≤ length p)%nat) ∧
      main output = Printed (Py.strip (up_to_marker after)) ∧
      (Py.contains response_marker after = false →
       main output = Printed (Py.strip after))
  else main output = IndexError.
Proof.
  destruct (Py.contains response_marker output) eqn:Hc.
  - destruct (Py.partition response_marker output) as [[before after]|] eqn:Hp.
    + exists before, after. destruct (partition_Some _ _ _ _ Hp) as [Heq Hmin].
      split; [done|]. split; [done|].
      pose proof (print_response_found _ _ _ Hp) as Hprint. split; [done|].
      intros Hnone. rewrite Hprint. unfold up_to_marker.
      by apply partition_None in Hnone as ->.
    + apply partition_None in Hp. congruence.
  - apply print_response_missing. by apply partition_None.
Qed.

(** One marker: the answer is everything after it. *)
Example print_response_once :
  main (Py.literal "Below is an instruction.

### Instruction:
Say hi.

### Response:
  Hi there!
") = Printed (Py.literal "Hi there!").
Proof. reflexivity. Qed.

(** No marker: the subscript fails. *)
Example print_response_no_marker :
  main (Py.literal "### Instruction: Say hi. ### Resp") = IndexError.
Proof. reflexivity. Qed.

(** The marker twice (the model repeats the template): what is printed
    stops at the second marker, so it is not the text that follows the
    first marker. *)
Lemma print_response_counterexample :
  let output := Py.literal "Q ### Response: A1 ### Response: A2" in
  output = Py.literal "Q " ++ response_marker ++ Py.literal " A1 ### Response: A2" ∧
  Py.contains response_marker (Py.literal "Q ") = false ∧
  main output = Printed (Py.literal "A1") ∧
  Py.strip (Py.literal " A1 ### Response: A2") = Py.literal "A1 ### Response: A2" ∧
  ¬ (∀ before after,
       Py.contains response_marker before = false →
       main (before ++ response_marker ++ after) = Printed (Py.strip after)).
Proof.
  split; [reflexivity|]. split; [reflexivity|]. split; [reflexivity|].
  split; [reflexivity|].
  intros H. specialize (H (Py.literal "Q ") (Py.literal " A1 ### Response: A2") eq_refl).
  vm_compute in H. discriminate H.
Qed.

End GenerateAdapterFacts.

(** ** xla/finetune/adapter.py *)

Section XlaFinetuneFacts.
Import XlaFinetune.

Lemma module_constants_Some (devices : Z) (hp : Hparams) :
  module_constants devices = Some hp →
  devices ≠ 0 ∧
  gradient_accumulation_iters hp = 1 ∧
  max_iters hp = 250000 / devices ∧
  warmup_steps hp = 100000 / devices.
Proof.
  unfold module_constants, Py.floordiv, batch_size, micro_batch_size, epoch_size,
    num_epochs. simpl.
  destruct (Z.eqb_spec devices 0); [done|]. simpl.
  change (1 `div` 1) with 1. change (5 * 50000 `div` 1) with 250000.
  change (2 * 50000 `div` 1) with 100000.
  intros [= <-]. simpl. by rewrite Z.div_1_r.
Qed.

Lemma xla_every_events (acc : bool) (k : Z) (es : list Event) (st st' : LoopState) :
  every acc k es st = Some st' →
  step_count st' = step_count st ∧
  (events st' = events st ∨ events st' = events st ++ es).
Proof.
  unfold every. destruct acc; [intros [= <-]; auto|].
  destruct (Py.mod_ (step_count st) k) as [r|]; [|done]. simpl.
  destruct (r =? 0); intros [= <-]; auto.
Qed.

Lemma xla_occurrences_app (e : Event) (es es' : list Event) :
  occurrences e (es ++ es') = (occurrences e es + occurrences e es')%nat.
Proof. unfold occurrences. by rewrite filter_app, length_app. Qed.

(** With an accumulation count of 1 no iteration accumulates. *)
Lemma xla_never_accumulating (hp : Hparams) (iter_num : Z) :
  gradient_accumulation_iters hp = 1 → is_accumulating hp iter_num = Some false.
Proof.
  unfold is_accumulating, Py.mod_. intros ->. simpl. by rewrite Z.mod_1_r.
Qed.

(** C9. In the accelerator-backend trainer the accumulation count that
    the module computes from [batch_size = 1] and [micro_batch_size = 1]
    is 1, whatever the device count; hence every iteration of its loop
    that runs to its end is classified as not accumulating, its backward
    pass runs with gradient synchronisation, and it performs exactly one
    optimizer step and one gradient clearing and adds 1 to [step_count]. *)
Theorem xla_every_iteration_steps (devices : Z) (hp : Hparams)
    (iter_num : Z) (st st' : LoopState) :
  module_constants devices = Some hp →
  train_iter hp iter_num st = Some st' →
  gradient_accumulation_iters hp = 1 ∧
  is_accumulating hp iter_num = Some false ∧
  ∃ new,
    events st' = events st ++ new ∧
    Backward iter_num false ∈ new ∧
    occurrences OptimizerStep new = 1%nat ∧
    occurrences ZeroGrad new = 1%nat ∧
    step_count st' = step_count st + 1.
Proof.
  intros Hc Hrun. apply module_constants_Some in Hc as (_ & Hg & _ & _).
  pose proof (xla_never_accumulating hp iter_num Hg) as Hacc.
  split; [done|]. split; [done|].
  unfold train_iter in Hrun. rewrite Hacc in Hrun.
  apply bind_Some in Hrun as (st0 & H0 & Hrun).
  apply bind_Some in Hrun as (acc & [= <-] & Hrun).
  apply bind_Some in Hrun as (r & _ & Hrun).
  apply bind_Some in Hrun as (st2 & H2 & Hrun).
  assert (∃ t0, step_count st0 = step_count st ∧ events st0 = events st ++ t0 ∧
                occurrences OptimizerStep t0 = 0%nat ∧ occurrences ZeroGrad t0 = 0%nat)
    as (t0 & Hc0 & He0 & Ho0 & Hz0).
  { destruct (step_count st <=? warmup_steps hp).
    - destruct (warmup_steps hp =? 0); [done|]. injection H0 as <-.
      by eexists.
    - injection H0 as <-. exists []. by rewrite app_nil_r. }
  match type of H2 with
  | every false eval_interval _ ?s = _ => set (st1 := s) in *
  end.
  apply xla_every_events in H2 as [Hc2 He2].
  apply xla_every_events in Hrun as [Hc3 He3].
  assert (∃ t1, events st1 = events st0 ++ [GetBatch iter_num (bool_decide (iter_num = 0));
             Forward iter_num; MarkStep; Backward iter_num false; MarkStep;
             OptimizerStep; ZeroGrad] ++ t1 ∧
           occurrences OptimizerStep t1 = 0%nat ∧ occurrences ZeroGrad t1 = 0%nat ∧
           step_count st1 = step_count st0 + 1)
    as (t1 & He1 & Ho1 & Hz1 & Hc1).
  { subst st1. destruct (r =? 0); simpl.
    - eexists. split; [rewrite <- !app_assoc; simpl; reflexivity|]. done.
    - exists []. split; [rewrite <- !app_assoc; simpl; reflexivity|]. done. }
  assert (∃ t2, events st2 = events st1 ++ t2 ∧
                occurrences OptimizerStep t2 = 0%nat ∧ occurrences ZeroGrad t2 = 0%nat)
    as (t2 & He2' & Ho2 & Hz2).
  { destruct He2 as [->| ->]; [exists []; by rewrite app_nil_r | by eexists]. }
  assert (∃ t3, events st' = events st2 ++ t3 ∧
                occurrences OptimizerStep t3 = 0%nat ∧ occurrences ZeroGrad t3 = 0%nat)
    as (t3 & He3' & Ho3 & Hz3).
  { destruct He3 as [->| ->]; [exists []; by rewrite app_nil_r | by eexists]. }
  exists (t0 ++ [GetBatch iter_num (bool_decide (iter_num = 0));
             Forward iter_num; MarkStep; Backward iter_num false; MarkStep;
             OptimizerStep; ZeroGrad] ++ t1 ++ t2 ++ t3).
  split; [rewrite He3', He2', He1, He0; by rewrite <- !app_assoc|].
  split; [apply elem_of_app; right; apply elem_of_app; left; repeat constructor|].
  rewrite !xla_occurrences_app, Ho0, Ho1, Ho2, Ho3, Hz0, Hz1, Hz2, Hz3.
  split; [reflexivity|]. split; [reflexivity|]. lia.
Qed.


Lemma xla_every_iteration_steps_witness :
  ∃ st',
    train_iter Samples.xla_hparams_8 0 Samples.xla_fresh_loop = Some st' ∧
    gradient_accumulation_iters Samples.xla_hparams_8 = 1 ∧
    is_accumulating Samples.xla_hparams_8 0 = Some false ∧
    ∃ new,
      events st' = events Samples.xla_fresh_loop ++ new ∧
      Backward 0 false ∈ new ∧
      occurrences OptimizerStep new = 1%nat ∧
      occurrences ZeroGrad new = 1%nat ∧
      step_count st' = step_count Samples.xla_fresh_loop + 1.
Proof.
  eexists. split; [reflexivity|].
  apply (xla_every_iteration_steps 8 Samples.xla_hparams_8 0 Samples.xla_fresh_loop);
    reflexivity.
Defined.

Example xla_module_constants_8 :
  module_constants 8 = Some Samples.xla_hparams_8.
Proof. reflexivity. Qed.


(** Over the whole loop the step counter follows the iteration counter. *)
Lemma xla_train_loop_steps (hp : Hparams) (n : nat) (a : Z) (st st' : LoopState) :
  gradient_accumulation_iters hp = 1 →
  train_loop hp n a st = Some st' →
  step_count st' = step_count st + Z.of_nat n.
Proof.
  intros Hg. revert a st. induction n as [|n IH]; intros a st.
  - intros [= <-]. simpl. lia.
  - cbn [train_loop]. intros H. apply bind_Some in H as (st1 & H1 & Hrest).
    rewrite (IH _ _ Hrest).
    unfold train_iter in H1. rewrite (xla_never_accumulating hp _ Hg) in H1.
    apply bind_Some in H1 as (st0 & H0 & H1).
    apply bind_Some in H1 as (acc & [= <-] & H1).
    apply bind_Some in H1 as (r & _ & H1).
    apply bind_Some in H1 as (st2 & H2 & H1).
    apply xla_every_events in H2 as [Hc2 _].
    apply xla_every_events in H1 as [Hc3 _].
    assert (step_count st0 = step_count st) as Hc0.
    { destruct (step_count st <=? warmup_steps hp); [|by injection H0 as <-].
      destruct (warmup_steps hp =? 0); [done|]. by injection H0 as <-. }
    rewrite Hc3, Hc2. destruct (r =? 0); simpl; lia.
Qed.

(*C9*)
End XlaFinetuneFacts.

(** ** scripts/merge_lora.py *)

Section MergeLoraFacts.
Import MergeLora.

Lemma bind_run {A B} (m : M A) (f : A → M B) (w : World) :
  (m ≫= f) w =
  match m w with
  | Ok a w' => f a w'
  | Raise e w' => Raise e w'
  end.
Proof. reflexivity. Qed.

Lemma check_valid_checkpoint_dir_run (d : string) (w : World) :
  check_valid_checkpoint_dir d w =
  if decide (valid_dir d (fs w)) then Ok tt w else Raise SystemExit w.
Proof.
  unfold check_valid_checkpoint_dir, valid_dir. rewrite bind_run. unfold is_file.
  rewrite bind_run.
  destruct (decide _) as [[H1 H2]|Hn].
  - by rewrite !bool_decide_eq_true_2.
  - repeat case_bool_decide; try reflexivity. by destruct Hn.
Qed.

Variable yaml_safe_load : Bytes → option (gmap string Yaml).
Variable merged_state_dict :
  Bytes → gmap string Yaml → option Yaml → Bytes → Bytes → option Bytes.

Abbreviation run := (merge_lora yaml_safe_load merged_state_dict).

(** With the sentinel in place the call either prints the notice and
    returns (both directories pass validation) or halts in validation;
    either way the world is otherwise as it was. *)
Lemma merge_lora_sentinel_run (d : string) (pre prec : option string) (w : World) :
  is_Some (fs w !! (d, "lit_model.pth.lora")) →
  (valid_dir d (fs w) ∧ (∀ p, pre = Some p → valid_dir p (fs w)) ∧
   run d pre prec w =
   Ok tt {| fs := fs w; stdout := stdout w ++ [already_merged_line];
            history := history w |}) ∨
  (¬ (valid_dir d (fs w) ∧ ∀ p, pre = Some p → valid_dir p (fs w)) ∧
   run d pre prec w = Raise SystemExit w).
Proof.
  intros Hs. unfold merge_lora.
  rewrite bind_run, check_valid_checkpoint_dir_run.
  destruct (decide (valid_dir d (fs w))) as [Hd|Hd]; [|right; split; [tauto|done]].
  rewrite bind_run.
  destruct pre as [p|].
  - rewrite check_valid_checkpoint_dir_run.
    destruct (decide (valid_dir p (fs w))) as [Hp|Hp].
    + left. split; [done|]. split; [by intros ? [= <-]|].
      rewrite bind_run. unfold is_file. by rewrite bool_decide_eq_true_2.
    + right. split; [|done]. intros [_ Hv]. apply Hp. by apply Hv.
  - left. split; [done|]. split; [done|].
    unfold mret at 1, M_ret at 1. cbv beta iota.
    rewrite bind_run. unfold is_file. by rewrite bool_decide_eq_true_2.
Qed.

Lemma load_lora_metadata_run (d : string) (w : World) :
  world_after (load_lora_metadata yaml_safe_load d w) = w.
Proof.
  unfold load_lora_metadata. rewrite bind_run. unfold is_file.
  case_bool_decide as Hf; [|reflexivity]. cbn [negb].
  destruct Hf as [raw Hraw]. rewrite bind_run. unfold read_file. rewrite Hraw.
  destruct (yaml_safe_load raw) as [hp|]; [|reflexivity].
  destruct (hp !! "checkpoint_dir") as [[]|]; reflexivity.
Qed.

(** A call that returns without having found the sentinel has gone
    through the whole merge: it leaves the three persisted states and
    the two closing lines behind. *)
Lemma merge_lora_fresh (d : string) (pre prec : option string) (w w' : World) :
  fs w !! (d, "lit_model.pth.lora") = None →
  run d pre prec w = Ok tt w' →
  ∃ lora merged,
    fs w !! (d, "lit_model.pth") = Some lora ∧
    valid_dirs d pre (fs w) ∧
    w' = {| fs := after_replace d lora merged (fs w);
            stdout := stdout w ++ [saved_line d; backup_line d];
            history := history w ++ [after_save d merged (fs w);
                                     after_backup d lora merged (fs w);
                                     after_replace d lora merged (fs w)] |}.
Proof.
  intros Hs Hrun. unfold merge_lora in Hrun.
  rewrite bind_run, check_valid_checkpoint_dir_run in Hrun.
  destruct (decide (valid_dir d (fs w))) as [Hd|]; [|done].
  rewrite bind_run in Hrun.
  assert (Hpre : from_option (λ p, valid_dir p (fs w)) True pre ∧
    (match pre with
     | Some d0 => check_valid_checkpoint_dir d0
     | None => mret ()
     end) w = Ok tt w).
  { destruct pre as [p|]; [|done]. rewrite check_valid_checkpoint_dir_run in *.
    by destruct (decide (valid_dir p (fs w))). }
  destruct Hpre as [Hp Hpre]. rewrite Hpre in Hrun.
  rewrite bind_run in Hrun. unfold is_file at 1 in Hrun.
  rewrite bool_decide_eq_false_2 in Hrun by (rewrite Hs; by intros [? ?]).
  rewrite bind_run in Hrun.
  pose proof (load_lora_metadata_run d w) as Hmeta.
  destruct (load_lora_metadata yaml_safe_load d w)
    as [[[lora_params pdir] lprec] w1|]; [|done].
  simpl in Hmeta. subst w1.
  rewrite bind_run in Hrun. unfold read_file at 1 in Hrun.
  destruct (fs w !! (d, "lit_config.json")) as [config|]; [|done].
  rewrite bind_run in Hrun. unfold read_file at 1 in Hrun.
  destruct (fs w !! (pdir, "lit_model.pth")) as [pretrained|]; [|done].
  rewrite bind_run in Hrun. unfold read_file at 1 in Hrun.
  destruct (fs w !! (d, "lit_model.pth")) as [lora|] eqn:Hlora; [|done].
  destruct (merged_state_dict _ _ _ _ _) as [merged|]; [|done].
  exists lora, merged. split; [done|]. split; [done|].
  rewrite bind_run in Hrun. unfold write_file at 1 in Hrun.
  rewrite bind_run in Hrun. unfold move at 1 in Hrun. cbn [fs persist] in Hrun.
  rewrite lookup_insert_ne, Hlora in Hrun by (intros [= ?]; done).
  rewrite bind_run in Hrun. unfold move at 1 in Hrun. cbn [fs persist] in Hrun.
  rewrite lookup_insert_ne, lookup_delete_ne, lookup_insert_eq in Hrun
    by (intros [= ?]; done).
  rewrite bind_run in Hrun. unfold print in Hrun.
  cbn [fs stdout history persist] in Hrun.
  injection Hrun as <-. unfold after_replace, after_backup, after_save.
  by rewrite <- !app_assoc.
Qed.

(** *** The three persisted states, file by file *)

Lemma after_save_lookup (d : string) (merged : Bytes) (s : FS) (k : Path) :
  after_save d merged s !! k =
  if decide (k = (d, "lit_model.pth.merged")) then Some merged else s !! k.
Proof.
  unfold after_save. destruct (decide _) as [->|Hne].
  - apply lookup_insert_eq.
  - by rewrite lookup_insert_ne.
Qed.

Lemma after_backup_lookup (d : string) (lora merged : Bytes) (s : FS) (k : Path) :
  after_backup d lora merged s !! k =
  if decide (k = (d, "lit_model.pth.lora")) then Some lora
  else if decide (k = (d, "lit_model.pth")) then None
  else if decide (k = (d, "lit_model.pth.merged")) then Some merged
  else s !! k.
Proof.
  unfold after_backup. destruct (decide (k = (d, "lit_model.pth.lora"))) as [->|H1].
  - apply lookup_insert_eq.
  - rewrite lookup_insert_ne by done.
    destruct (decide (k = (d, "lit_model.pth"))) as [->|H2].
    + apply lookup_delete_eq.
    + rewrite lookup_delete_ne by done. rewrite after_save_lookup.
      by destruct (decide _).
Qed.

Lemma after_replace_lookup (d : string) (lora merged : Bytes) (s : FS) (k : Path) :
  after_replace d lora merged s !! k =
  if decide (k = (d, "lit_model.pth")) then Some merged
  else if decide (k = (d, "lit_model.pth.merged")) then None
  else if decide (k = (d, "lit_model.pth.lora")) then Some lora
  else s !! k.
Proof.
  unfold after_replace. destruct (decide (k = (d, "lit_model.pth"))) as [->|H1].
  - apply lookup_insert_eq.
  - rewrite lookup_insert_ne by done.
    destruct (decide (k = (d, "lit_model.pth.merged"))) as [->|H2].
    + apply lookup_delete_eq.
    + rewrite lookup_delete_ne by done. rewrite after_backup_lookup.
      repeat destruct (decide _); done.
Qed.

(** A directory that was valid before the merge is valid after it. *)
Lemma valid_dir_after_replace (d p : string) (lora merged : Bytes) (s : FS) :
  valid_dir p s → valid_dir p (after_replace d lora merged s).
Proof.
  intros [Hw Hc]. unfold valid_dir. rewrite !after_replace_lookup. split.
  - repeat destruct (decide _); try done; by eexists.
  - repeat destruct (decide _); try done; by simplify_eq.
Qed.

(** A completed call leaves the sentinel and valid directories behind. *)
Lemma merge_lora_leaves_sentinel (d : string) (pre prec : option string)
    (w w' : World) :
  run d pre prec w = Ok tt w' →
  is_Some (fs w' !! (d, "lit_model.pth.lora")) ∧ valid_dirs d pre (fs w').
Proof.
  intros Hrun.
  destruct (fs w !! (d, "lit_model.pth.lora")) as [b|] eqn:Hs.
  - destruct (merge_lora_sentinel_run d pre prec w) as [(Hd & Hp & Hr)|[_ Hr]];
      [by eexists| |congruence].
    rewrite Hr in Hrun. injection Hrun as <-. cbn [fs]. rewrite Hs.
    split; [by eexists|]. split; [done|]. destruct pre; [by apply Hp|done].
  - destruct (merge_lora_fresh _ _ _ _ _ Hs Hrun) as (lora & merged & Hl & [Hd Hp] & ->).
    cbn [fs]. split.
    + rewrite after_replace_lookup. repeat destruct (decide _); try done; by eexists.
    + split; [by apply valid_dir_after_replace|].
      destruct pre; [by apply valid_dir_after_replace|done].
Qed.

End MergeLoraFacts.

(** C1. In a checkpoint directory that holds the sentinel
    [lit_model.pth.lora], a call of [merge_lora] writes and renames
    nothing: the file system, and with it the weights file, is what it
    was. Once the directories pass the validation that comes first, the
    call prints the notice and returns; and they do pass it in the
    world left by an earlier call that completed, so a second run
    after a first one is a no-op that reports and returns. *)
Theorem merge_lora_idempotent
    (yaml_safe_load : MergeLora.Bytes → option (gmap string MergeLora.Yaml))
    (merged_state_dict : MergeLora.Bytes → gmap string MergeLora.Yaml →
       option MergeLora.Yaml → MergeLora.Bytes → MergeLora.Bytes →
       option MergeLora.Bytes)
    (d : string) (pre prec : option string) (w : MergeLora.World) :
  is_Some (MergeLora.fs w !! (d, "lit_model.pth.lora")) →
  let r := MergeLora.merge_lora yaml_safe_load merged_state_dict d pre prec w in
  let noop := MergeLora.Ok tt
      {| MergeLora.fs := MergeLora.fs w;
         MergeLora.stdout := MergeLora.stdout w ++ [MergeLora.already_merged_line];
         MergeLora.history := MergeLora.history w |} in
  MergeLora.fs (MergeLora.world_after r) = MergeLora.fs w ∧
  MergeLora.history (MergeLora.world_after r) = MergeLora.history w ∧
  (MergeLora.valid_dirs d pre (MergeLora.fs w) → r = noop) ∧
  (∀ w0, MergeLora.merge_lora yaml_safe_load merged_state_dict d pre prec w0
           = MergeLora.Ok tt w → r = noop).
Proof.
  intros Hs r noop. subst r noop.
  destruct (merge_lora_sentinel_run yaml_safe_load merged_state_dict d pre prec w Hs)
    as [(Hd & Hp & Hr)|[Hn Hr]]; rewrite Hr; cbn [MergeLora.world_after MergeLora.fs
      MergeLora.history].
  - by repeat split.
  - split; [done|]. split; [done|]. split.
    + intros [Hd Hp]. destruct Hn. split; [done|]. intros p ->. exact Hp.
    + intros w0 H0.
      destruct (merge_lora_leaves_sentinel _ _ _ _ _ _ _ H0) as [_ [Hd Hp]].
      destruct Hn. split; [done|]. intros p ->. exact Hp.
Qed.

(** The sample directory is merged once; the second call finds the
    sentinel. *)
Lemma merge_lora_idempotent_witness :
  ∃ w1,
    MergeLora.merge_lora Samples.sample_yaml Samples.sample_merge "out" None None
      Samples.lora_world = MergeLora.Ok tt w1 ∧
    MergeLora.fs w1 !! ("out", "lit_model.pth") = Some [4; 4; 1; 1]%N ∧
    let r := MergeLora.merge_lora Samples.sample_yaml Samples.sample_merge
               "out" None None w1 in
    let noop := MergeLora.Ok tt
        {| MergeLora.fs := MergeLora.fs w1;
           MergeLora.stdout := MergeLora.stdout w1 ++ [MergeLora.already_merged_line];
           MergeLora.history := MergeLora.history w1 |} in
    MergeLora.fs (MergeLora.world_after r) = MergeLora.fs w1 ∧
    MergeLora.history (MergeLora.world_after r) = MergeLora.history w1 ∧
    (MergeLora.valid_dirs "out" None (MergeLora.fs w1) → r = noop) ∧
    (∀ w0, MergeLora.merge_lora Samples.sample_yaml Samples.sample_merge
             "out" None None w0 = MergeLora.Ok tt w1 → r = noop).
Proof.
  eexists. split; [vm_compute; reflexivity|]. split; [vm_compute; reflexivity|].
  apply (merge_lora_idempotent Samples.sample_yaml Samples.sample_merge "out" None None).
  vm_compute. eexists. reflexivity.
Defined.


(** C2 (as amended). A call of [merge_lora] that gets past the sentinel
    check and returns persists exactly three states, in this order: the
    merged weights are written to [lit_model.pth.merged]; the LoRA
    weights file [lit_model.pth] is renamed to [lit_model.pth.lora]; the
    merged file is renamed to [lit_model.pth]. In each of the three
    states the LoRA weights are on disk (as [lit_model.pth], then as the
    backup) and so are the merged weights (as the temporary file, then
    as [lit_model.pth]); files outside these three names are untouched.
    In the state between the two renames no file is called
    [lit_model.pth]. *)
Theorem merge_lora_backup_then_replace
    (yaml_safe_load : MergeLora.Bytes → option (gmap string MergeLora.Yaml))
    (merged_state_dict : MergeLora.Bytes → gmap string MergeLora.Yaml →
       option MergeLora.Yaml → MergeLora.Bytes → MergeLora.Bytes →
       option MergeLora.Bytes)
    (d : string) (pre prec : option string) (w w' : MergeLora.World) :
  MergeLora.fs w !! (d, "lit_model.pth.lora") = None →
  MergeLora.merge_lora yaml_safe_load merged_state_dict d pre prec w
    = MergeLora.Ok tt w' →
  ∃ lora merged s1 s2 s3,
    MergeLora.fs w !! (d, "lit_model.pth") = Some lora ∧
    MergeLora.history w' = MergeLora.history w ++ [s1; s2; s3] ∧
    MergeLora.fs w' = s3 ∧
    s1 = <[(d, "lit_model.pth.merged") := merged]> (MergeLora.fs w) ∧
    s2 = <[(d, "lit_model.pth.lora") := lora]> (delete (d, "lit_model.pth") s1) ∧
    s3 = <[(d, "lit_model.pth") := merged]> (delete (d, "lit_model.pth.merged") s2) ∧
    (s1 !! (d, "lit_model.pth") = Some lora ∧
     s1 !! (d, "lit_model.pth.merged") = Some merged) ∧
    (s2 !! (d, "lit_model.pth") = None ∧
     s2 !! (d, "lit_model.pth.lora") = Some lora ∧
     s2 !! (d, "lit_model.pth.merged") = Some merged) ∧
    (s3 !! (d, "lit_model.pth") = Some merged ∧
     s3 !! (d, "lit_model.pth.lora") = Some lora ∧
     s3 !! (d, "lit_model.pth.merged") = None) ∧
    (∀ k, k ∉ [(d, "lit_model.pth"); (d, "lit_model.pth.lora");
                (d, "lit_model.pth.merged")] →
          s1 !! k = MergeLora.fs w !! k ∧ s2 !! k = MergeLora.fs w !! k ∧
          s3 !! k = MergeLora.fs w !! k).
Proof.
  intros Hs Hrun.
  destruct (merge_lora_fresh _ _ _ _ _ _ _ Hs Hrun) as (lora & merged & Hl & _ & ->).
  exists lora, merged, (MergeLora.after_save d merged (MergeLora.fs w)),
    (MergeLora.after_backup d lora merged (MergeLora.fs w)),
    (MergeLora.after_replace d lora merged (MergeLora.fs w)).
  split; [done|]. split; [done|]. split; [done|].
  split; [done|]. split; [done|]. split; [done|].
  rewrite !after_save_lookup, !after_backup_lookup, !after_replace_lookup.
  split; [|split; [|split]].
  - repeat destruct (decide _); done.
  - repeat destruct (decide _); done.
  - repeat destruct (decide _); done.
  - intros k Hk. rewrite !not_elem_of_cons in Hk. destruct Hk as (H1 & H2 & H3 & _).
    rewrite !after_save_lookup, !after_backup_lookup, !after_replace_lookup.
    repeat destruct (decide _); done.
Qed.

Lemma merge_lora_backup_then_replace_witness :
  ∃ w',
    MergeLora.merge_lora Samples.sample_yaml Samples.sample_merge "out" None None
      Samples.lora_world = MergeLora.Ok tt w' ∧
    ∃ lora merged s1 s2 s3,
      MergeLora.fs Samples.lora_world !! ("out", "lit_model.pth") = Some lora ∧
      MergeLora.history w' = MergeLora.history Samples.lora_world ++ [s1; s2; s3] ∧
      MergeLora.fs w' = s3 ∧
      s1 = <[("out", "lit_model.pth.merged") := merged]> (MergeLora.fs Samples.lora_world) ∧
      s2 = <[("out", "lit_model.pth.lora") := lora]> (delete ("out", "lit_model.pth") s1) ∧
      s3 = <[("out", "lit_model.pth") := merged]>
             (delete ("out", "lit_model.pth.merged") s2) ∧
      (s1 !! ("out", "lit_model.pth") = Some lora ∧
       s1 !! ("out", "lit_model.pth.merged") = Some merged) ∧
      (s2 !! ("out", "lit_model.pth") = None ∧
       s2 !! ("out", "lit_model.pth.lora") = Some lora ∧
       s2 !! ("out", "lit_model.pth.merged") = Some merged) ∧
      (s3 !! ("out", "lit_model.pth") = Some merged ∧
       s3 !! ("out", "lit_model.pth.lora") = Some lora ∧
       s3 !! ("out", "lit_model.pth.merged") = None) ∧
      (∀ k, k ∉ [("out", "lit_model.pth"); ("out", "lit_model.pth.lora");
                  ("out", "lit_model.pth.merged")] →
            s1 !! k = MergeLora.fs Samples.lora_world !! k ∧
            s2 !! k = MergeLora.fs Samples.lora_world !! k ∧
            s3 !! k = MergeLora.fs Samples.lora_world !! k).
Proof.
  eexists. split; [vm_compute; reflexivity|].
  apply (merge_lora_backup_then_replace Samples.sample_yaml Samples.sample_merge
           "out" None None Samples.lora_world); vm_compute; reflexivity.
Defined.

(** Between the two renames the directory has no [lit_model.pth]: the
    second of the three persisted states of the sample merge fails the
    validity check that every command starts with. So it is not the
    case that the directory holds its weights file in every state of
    the sequence. *)
Lemma merge_lora_counterexample :
  (∃ w' s1 s2 s3,
     MergeLora.merge_lora Samples.sample_yaml Samples.sample_merge "out" None None
       Samples.lora_world = MergeLora.Ok tt w' ∧
     MergeLora.history w' = [s1; s2; s3] ∧
     s2 !! ("out", "lit_model.pth") = None ∧
     ¬ MergeLora.has_weights "out" s2 ∧
     ¬ MergeLora.valid_dir "out" s2) ∧
  ¬ (∀ yaml_safe_load merged_state_dict d pre prec w w',
       MergeLora.fs w !! (d, "lit_model.pth.lora") = None →
       MergeLora.merge_lora yaml_safe_load merged_state_dict d pre prec w
         = MergeLora.Ok tt w' →
       ∀ s, s ∈ drop (length (MergeLora.history w)) (MergeLora.history w') →
            MergeLora.has_weights d s).
Proof.
  assert (Hrun : ∃ w' s1 s2 s3,
     MergeLora.merge_lora Samples.sample_yaml Samples.sample_merge "out" None None
       Samples.lora_world = MergeLora.Ok tt w' ∧
     MergeLora.history w' = [s1; s2; s3] ∧
     s2 !! ("out", "lit_model.pth") = None).
  { do 4 eexists. split; [vm_compute; reflexivity|]. split; [reflexivity|].
    vm_compute. reflexivity. }
  destruct Hrun as (w' & s1 & s2 & s3 & Hrun & Hh & Hs2).
  assert (Hnw : ¬ MergeLora.has_weights "out" s2).
  { unfold MergeLora.has_weights. rewrite Hs2. by intros [? ?]. }
  split.
  - exists w', s1, s2, s3. split; [done|]. split; [done|]. split; [done|].
    split; [done|]. by intros [? _].
  - intros H. apply Hnw.
    apply (H Samples.sample_yaml Samples.sample_merge "out" None None
             Samples.lora_world w'); [reflexivity|done|].
    rewrite Hh. simpl. apply list_elem_of_further, list_elem_of_here.
Qed.

(* ================================================================== *)
(** * Part III: further properties of the scripts                      *)
(* ================================================================== *)

(** ** scripts/merge_lora.py: failures, inputs and result *)

Section MergeLoraMore.
Import MergeLora.

Variable yaml_safe_load : Bytes → option (gmap string Yaml).
Variable merged_state_dict :
  Bytes → gmap string Yaml → option Yaml → Bytes → Bytes → option Bytes.

Abbreviation run' := (merge_lora yaml_safe_load merged_state_dict).

(** What [load_lora_metadata] hands back, read off the file. *)
Lemma load_lora_metadata_Ok (d : string) (w w' : World)
    (lora_params : gmap string Yaml) (pdir : string) (precision : option Yaml) :
  load_lora_metadata yaml_safe_load d w = Ok (lora_params, pdir, precision) w' →
  w' = w ∧
  ∃ raw hparams,
    fs w !! (d, "hyperparameters.yaml") = Some raw ∧
    yaml_safe_load raw = Some hparams ∧
    hparams !! "checkpoint_dir" = Some (YStr pdir) ∧
    precision = hparams !! "precision" ∧
    lora_params =
      filter (λ '(k, v), Py.startswith (Py.chars "lora_") (Py.chars k) = true) hparams.
Proof.
  unfold load_lora_metadata. rewrite bind_run. unfold is_file.
  case_bool_decide as Hf; [|done]. cbn [negb].
  destruct Hf as [raw Hraw]. rewrite bind_run. unfold read_file. rewrite Hraw.
  destruct (yaml_safe_load raw) as [hp|] eqn:Hy; [|done].
  destruct (hp !! "checkpoint_dir") as [[s|z|b| |r]|] eqn:Hc; try done.
  intros [= <- <- <- <-]. split; [done|]. by exists raw, hp.
Qed.


(** Validation, in the order the script does it. *)
Lemma merge_lora_validation (d : string) (pre prec : option string) (w : World) :
  ¬ valid_dirs d pre (fs w) → run' d pre prec w = Raise SystemExit w.
Proof.
  intros Hn. unfold merge_lora.
  rewrite bind_run, check_valid_checkpoint_dir_run.
  destruct (decide (valid_dir d (fs w))) as [Hd|Hd]; [|done].
  rewrite bind_run. destruct pre as [p|]; [|destruct Hn; by split].
  rewrite check_valid_checkpoint_dir_run.
  destruct (decide (valid_dir p (fs w))) as [Hp|Hp]; [|done].
  destruct Hn. by split.
Qed.

(** The run of a merge in a directory that is valid and not yet merged,
    step by step. *)
Lemma merge_lora_fresh_run (d : string) (pre prec : option string) (w : World)
    (config lora : Bytes) :
  valid_dirs d pre (fs w) →
  fs w !! (d, "lit_model.pth.lora") = None →
  fs w !! (d, "lit_config.json") = Some config →
  fs w !! (d, "lit_model.pth") = Some lora →
  run' d pre prec w =
  match fs w !! (d, "hyperparameters.yaml") with
  | None => Raise FileNotFoundError w
  | Some raw =>
    match yaml_safe_load raw with
    | None => Raise RuntimeError w
    | Some hparams =>
      match hparams !! "checkpoint_dir" with
      | None => Raise KeyError w
      | Some (YStr pdir) =>
        match fs w !! (pdir, "lit_model.pth") with
        | None => Raise FileNotFoundError w
        | Some base =>
          match merged_state_dict config
                  (filter (λ '(k, v),
                     Py.startswith (Py.chars "lora_") (Py.chars k) = true) hparams)
                  (match prec with
                   | Some p => Some (YStr p)
                   | None => hparams !! "precision"
                   end) base lora with
          | None => Raise RuntimeError w
          | Some merged =>
              Ok tt {| fs := after_replace d lora merged (fs w);
                       stdout := stdout w ++ [saved_line d; backup_line d];
                       history := history w ++
                         [after_save d merged (fs w);
                          after_backup d lora merged (fs w);
                          after_replace d lora merged (fs w)] |}
          end
        end
      | Some _ => Raise TypeError w
      end
    end
  end.
Proof.
  intros [Hd Hp] Hs Hc Hl. unfold merge_lora.
  rewrite bind_run, check_valid_checkpoint_dir_run.
  rewrite decide_True by done. rewrite bind_run.
  assert (Hpre : (match pre with
     | Some d0 => check_valid_checkpoint_dir d0
     | None => mret ()
     end) w = Ok tt w).
  { destruct pre as [p|]; [|done]. rewrite check_valid_checkpoint_dir_run.
    by rewrite decide_True. }
  rewrite Hpre. rewrite bind_run. unfold is_file at 1.
  rewrite bool_decide_eq_false_2 by (rewrite Hs; by intros [? ?]).
  rewrite bind_run. unfold load_lora_metadata. rewrite bind_run. unfold is_file.
  destruct (fs w !! (d, "hyperparameters.yaml")) as [raw|] eqn:Hraw.
  2: { rewrite bool_decide_eq_false_2 by (by intros [? ?]). done. }
  rewrite bool_decide_eq_true_2 by (by eexists). cbn [negb].
  rewrite bind_run. unfold read_file at 1. rewrite Hraw.
  destruct (yaml_safe_load raw) as [hp|]; [|done].
  destruct (hp !! "checkpoint_dir") as [[pdir|z|b| |r]|]; try done.
  unfold mret at 1, M_ret at 1. cbv beta iota.
  rewrite bind_run. unfold read_file at 1. rewrite Hc.
  rewrite bind_run. unfold read_file at 1.
  destruct (fs w !! (pdir, "lit_model.pth")) as [base|]; [|done].
  rewrite bind_run. unfold read_file at 1. rewrite Hl.
  destruct (merged_state_dict _ _ _ _ _) as [merged|]; [|done].
  rewrite bind_run. unfold write_file at 1.
  rewrite bind_run. unfold move at 1. cbn [fs persist].
  rewrite lookup_insert_ne, Hl by (intros [= ?]; done).
  rewrite bind_run. unfold move at 1. cbn [fs persist].
  rewrite lookup_insert_ne, lookup_delete_ne, lookup_insert_eq
    by (intros [= ?]; done).
  rewrite bind_run. unfold print.
  cbn [fs stdout history persist].
  unfold after_replace, after_backup, after_save.
  by rewrite <- !app_assoc.
Qed.

End MergeLoraMore.

Section MergeLoraExtras.
Import MergeLora.

(** X1. A call of [merge_lora] that raises has changed nothing: the
    files, the persisted states and the printed lines are those of the
    start. Every failure (validation, metadata, missing base weights,
    the merge itself) comes before the first write, and the two renames
    after it cannot fail. *)
Theorem merge_lora_failure_changes_nothing
    (yaml_safe_load : Bytes → option (gmap string Yaml))
    (merged_state_dict : Bytes → gmap string Yaml → option Yaml → Bytes → Bytes →
       option Bytes)
    (d : string) (pre prec : option string) (w w' : World) (e : Exception) :
  merge_lora yaml_safe_load merged_state_dict d pre prec w = Raise e w' → w' = w.
Proof.
  intros Hrun.
  destruct (fs w !! (d, "lit_model.pth.lora")) as [b|] eqn:Hs.
  { destruct (merge_lora_sentinel_run yaml_safe_load merged_state_dict d pre prec w)
      as [(_ & _ & Hr)|[_ Hr]]; [by eexists| |]; rewrite Hr in Hrun; [done|by injection Hrun]. }
  destruct (decide (valid_dir d (fs w))) as [Hd|Hd].
  2: { rewrite merge_lora_validation in Hrun by (by intros [? _]). by injection Hrun. }
  assert (Hp : from_option (λ p, valid_dir p (fs w)) True pre ∨
               ¬ from_option (λ p, valid_dir p (fs w)) True pre).
  { destruct pre as [p|]; simpl; [|by left].
    destruct (decide (valid_dir p (fs w))); [by left|by right]. }
  destruct Hp as [Hp|Hp].
  2: { rewrite merge_lora_validation in Hrun by (by intros [_ ?]). by injection Hrun. }
  destruct (Hd) as [[lora Hl] [config Hc]].
  rewrite (merge_lora_fresh_run _ _ d pre prec w config lora) in Hrun by done.
  repeat case_match; first [discriminate Hrun | by injection Hrun].
Qed.



(** X3. The directory passed as [pretrained_checkpoint_dir] is checked
    for validity and then not used: the name is rebound to the
    directory recorded in the metadata. Passing a valid directory gives
    the run, and the result, of passing none. *)
Theorem merge_lora_pretrained_dir_unused
    (yaml_safe_load : Bytes → option (gmap string Yaml))
    (merged_state_dict : Bytes → gmap string Yaml → option Yaml → Bytes → Bytes →
       option Bytes)
    (d p : string) (prec : option string) (w : World) :
  valid_dir p (fs w) →
  merge_lora yaml_safe_load merged_state_dict d (Some p) prec w =
  merge_lora yaml_safe_load merged_state_dict d None prec w.
Proof.
  intros Hp. unfold merge_lora.
  rewrite !(bind_run (check_valid_checkpoint_dir d)).
  destruct (check_valid_checkpoint_dir d w) as [[] w1|e w1] eqn:Hd; [|done].
  rewrite check_valid_checkpoint_dir_run in Hd.
  destruct (decide (valid_dir d (fs w))); [|done]. injection Hd as <-.
  rewrite !(bind_run _ _ w). rewrite check_valid_checkpoint_dir_run.
  by rewrite decide_True.
Qed.



(** X5. [load_lora_metadata] reads and changes nothing else. When it
    returns, the LoRA parameters are the entries of the hyper-parameter
    file whose key begins with [lora_], with their values; the base
    directory is the file's [checkpoint_dir] entry, the precision its
    [precision] entry or [None]; and neither of these two entries is
    among the LoRA parameters. *)
Theorem load_lora_metadata_returns
    (yaml_safe_load : Bytes → option (gmap string Yaml))
    (d : string) (w w' : World)
    (lora_params : gmap string Yaml) (pdir : string) (precision : option Yaml) :
  load_lora_metadata yaml_safe_load d w = Ok (lora_params, pdir, precision) w' →
  w' = w ∧
  ∃ raw hparams,
    fs w !! (d, "hyperparameters.yaml") = Some raw ∧
    yaml_safe_load raw = Some hparams ∧
    hparams !! "checkpoint_dir" = Some (YStr pdir) ∧
    precision = hparams !! "precision" ∧
    (∀ k v, lora_params !! k = Some v ↔
            hparams !! k = Some v ∧ ∃ rest, k = "lora_" +:+ rest) ∧
    lora_params !! "checkpoint_dir" = None ∧
    lora_params !! "precision" = None.
Proof.
  intros Hrun. apply load_lora_metadata_Ok in Hrun
    as (-> & raw & hp & Hraw & Hy & Hcd & -> & ->).
  split; [done|]. exists raw, hp. repeat (split; [done|]).
  assert (Hk : ∀ k v,
    filter (λ '(k, v), Py.startswith (Py.chars "lora_") (Py.chars k) = true) hp !! k
      = Some v ↔ hp !! k = Some v ∧ ∃ rest, k = "lora_" +:+ rest).
  { intros k v. rewrite map_lookup_filter_Some. rewrite startswith_spec.
    split; intros [Hl [q Hq]]; (split; [done|]).
    - destruct (chars_surj q) as [rest <-]. exists rest.
      apply chars_inj. by rewrite chars_app.
    - exists (Py.chars q). by rewrite Hq, chars_app. }
  split; [exact Hk|].
  split; apply eq_None_not_Some; intros [v [_ [rest Hr]]%Hk]; discriminate Hr.
Qed.

End MergeLoraExtras.

(** The sample runs. *)
Lemma merge_lora_failure_changes_nothing_witness :
  ∃ e w',
    MergeLora.merge_lora Samples.sample_yaml Samples.sample_merge "out" None None
      MoreSamples.no_metadata_world = MergeLora.Raise e w' ∧
    w' = MoreSamples.no_metadata_world.
Proof.
  exists MergeLora.FileNotFoundError, MoreSamples.no_metadata_world.
  split; [vm_refl|].
  apply (merge_lora_failure_changes_nothing Samples.sample_yaml Samples.sample_merge
           "out" None None MoreSamples.no_metadata_world MoreSamples.no_metadata_world
           MergeLora.FileNotFoundError).
  vm_refl.
Defined.


Lemma merge_lora_pretrained_dir_unused_witness :
  MergeLora.merge_lora Samples.sample_yaml Samples.sample_merge "out" (Some "moved")
    None MoreSamples.moved_world =
  MergeLora.merge_lora Samples.sample_yaml Samples.sample_merge "out" None None
    MoreSamples.moved_world.
Proof.
  apply (merge_lora_pretrained_dir_unused Samples.sample_yaml Samples.sample_merge
           "out" "moved" None MoreSamples.moved_world).
  apply (bool_decide_unpack _). vm_compute. exact I.
Defined.


Lemma load_lora_metadata_returns_witness :
  ∃ raw hparams,
    MergeLora.fs Samples.lora_world !! ("out", "hyperparameters.yaml") = Some raw ∧
    Samples.sample_yaml raw = Some hparams ∧
    hparams !! "checkpoint_dir" = Some (MergeLora.YStr "base") ∧
    (None : option MergeLora.Yaml) = hparams !! "precision" ∧
    (∀ k v, (list_to_map [("lora_r", MergeLora.YInt 8)] : gmap string MergeLora.Yaml)
              !! k = Some v ↔
            hparams !! k = Some v ∧ ∃ rest, k = "lora_" +:+ rest) ∧
    (list_to_map [("lora_r", MergeLora.YInt 8)] : gmap string MergeLora.Yaml)
      !! "checkpoint_dir" = None ∧
    (list_to_map [("lora_r", MergeLora.YInt 8)] : gmap string MergeLora.Yaml)
      !! "precision" = None.
Proof.
  apply (load_lora_metadata_returns Samples.sample_yaml "out" Samples.lora_world
           Samples.lora_world (list_to_map [("lora_r", MergeLora.YInt 8)]) "base" None).
  vm_refl.
Defined.

(** ** generate_adapter.py: what is printed *)

Section StripFacts.

Import PyMore.

Lemma lstrip_spec (s : Py.str) :
  ∃ ws, s = ws ++ Py.lstrip s ∧ spaces ws ∧
        ∀ c, head (Py.lstrip s) = Some c → Py.isspace c = false.
Proof.
  induction s as [|c s (ws & Hs & Hws & Hh)]; simpl.
  - exists []. split; [done|]. split; [constructor|done].
  - destruct (Py.isspace c) eqn:Hc.
    + exists (c :: ws). split; [simpl; by rewrite <- Hs|].
      split; [by constructor|done].
    + exists []. split; [done|]. split; [constructor|].
      simpl. by intros ? [= <-].
Qed.

Lemma rstrip_spec (s : Py.str) :
  ∃ ws, s = Py.rstrip s ++ ws ∧ spaces ws ∧
        ∀ c, last (Py.rstrip s) = Some c → Py.isspace c = false.
Proof.
  unfold Py.rstrip. destruct (lstrip_spec (reverse s)) as (ws & Hs & Hws & Hh).
  exists (reverse ws). split; [|split].
  - rewrite <- reverse_app, <- Hs. by rewrite reverse_involutive.
  - unfold spaces. by rewrite Forall_reverse.
  - intros c. rewrite last_reverse. apply Hh.
Qed.

Lemma strip_spec (s : Py.str) :
  ∃ ws ws', s = ws ++ Py.strip s ++ ws' ∧ spaces ws ∧ spaces ws' ∧
    (∀ c, head (Py.strip s) = Some c → Py.isspace c = false) ∧
    (∀ c, last (Py.strip s) = Some c → Py.isspace c = false).
Proof.
  unfold Py.strip. destruct (lstrip_spec s) as (ws & Hs & Hws & Hh).
  destruct (rstrip_spec (Py.lstrip s)) as (ws' & Hs' & Hws' & Hl).
  exists ws, ws'. split; [by rewrite <- Hs'|]. split; [done|]. split; [done|].
  split; [|done]. intros c Hc. apply Hh. rewrite Hs'.
  destruct (Py.rstrip (Py.lstrip s)); [done|]. exact Hc.
Qed.

(** A stripped text is left alone by [strip]. *)
Lemma lstrip_id (s : Py.str) :
  (∀ c, head s = Some c → Py.isspace c = false) → Py.lstrip s = s.
Proof.
  destruct s as [|c s]; [done|]. simpl. intros H. by rewrite (H c).
Qed.

Lemma strip_idempotent (s : Py.str) : Py.strip (Py.strip s) = Py.strip s.
Proof.
  destruct (strip_spec s) as (_ & _ & _ & _ & _ & Hh & Hl).
  unfold Py.strip at 1. rewrite (lstrip_id _ Hh). unfold Py.rstrip.
  rewrite lstrip_id, reverse_involutive; [done|].
  intros c. rewrite head_reverse. apply Hl.
Qed.

End StripFacts.

Section GenerateAdapterExtras.
Import GenerateAdapter PyMore.

(** The text before the first marker holds no marker. *)
Lemma partition_before {A} `{EqDecision A} (sep l p q : list A) :
  Py.partition sep l = Some (p, q) → sep ≠ [] → Py.contains sep p = false.
Proof.
  intros Hp Hne. destruct (partition_Some _ _ _ _ Hp) as [-> Hmin].
  destruct (Py.contains sep p) eqn:Hc; [|done].
  apply contains_spec in Hc as (x & y & ->).
  specialize (Hmin x (y ++ sep ++ q)). rewrite <- !app_assoc in Hmin.
  specialize (Hmin eq_refl). rewrite !length_app in Hmin.
  destruct sep; [done|]. simpl in Hmin. lia.
Qed.

Lemma contains_within {A} `{EqDecision A} (sep p t q : list A) :
  Py.contains sep (p ++ t ++ q) = false → Py.contains sep t = false.
Proof.
  intros Hn. destruct (Py.contains sep t) eqn:Hc; [|done].
  apply contains_spec in Hc as (x & y & ->).
  rewrite <- Hn. symmetry. apply contains_spec. exists (p ++ x), (y ++ q).
  by rewrite <- !app_assoc.
Qed.

(** X6. Whatever [main] prints is a piece of the decoded text as it
    stands: the text is [before + "### Response:" + ws + printed + ws'
    + rest], where [before] holds no marker, [ws] and [ws'] are
    whitespace only, and [rest] is empty or begins with the next
    marker. The printed text neither begins nor ends with whitespace,
    and the marker does not occur in it. *)
Theorem main_prints_trimmed_segment (output printed : Py.str) :
  main output = Printed printed →
  ∃ before ws ws' rest,
    output = before ++ response_marker ++ ws ++ printed ++ ws' ++ rest ∧
    Py.contains response_marker before = false ∧
    spaces ws ∧ spaces ws' ∧
    (rest = [] ∨ Py.startswith response_marker rest = true) ∧
    (∀ c, head printed = Some c → Py.isspace c = false) ∧
    (∀ c, last printed = Some c → Py.isspace c = false) ∧
    Py.contains response_marker printed = false.
Proof.
  intros Hmain.
  destruct (Py.partition response_marker output) as [[before after]|] eqn:Hp.
  2: { rewrite (print_response_missing _ Hp) in Hmain. done. }
  rewrite (print_response_found _ _ _ Hp) in Hmain. injection Hmain as <-.
  pose proof (partition_before _ _ _ _ Hp) as Hb.
  destruct (partition_Some _ _ _ _ Hp) as [-> _].
  assert (Hseg : ∃ rest, after = up_to_marker after ++ rest ∧
            (rest = [] ∨ Py.startswith response_marker rest = true) ∧
            Py.contains response_marker (up_to_marker after) = false).
  { unfold up_to_marker.
    destruct (Py.partition response_marker after) as [[seg q]|] eqn:Hq.
    - exists (response_marker ++ q). destruct (partition_Some _ _ _ _ Hq) as [-> _].
      split; [done|]. split.
      + right. apply startswith_spec. by exists q.
      + by apply (partition_before _ _ _ _ Hq).
    - exists []. split; [by rewrite app_nil_r|]. split; [by left|].
      by apply partition_None. }
  destruct Hseg as (rest & Hafter & Hrest & Hnone).
  destruct (strip_spec (up_to_marker after)) as (ws & ws' & Hs & Hws & Hws' & Hh & Hl).
  exists before, ws, ws', rest. split.
  { rewrite Hafter at 1. rewrite Hs at 1. by rewrite <- !app_assoc. }
  split; [by apply Hb|]. repeat (split; [done|]).
  rewrite Hs in Hnone. by apply contains_within in Hnone.
Qed.

End GenerateAdapterExtras.

Lemma main_prints_trimmed_segment_witness :
  ∃ before ws ws' rest,
    Py.literal "Q ### Response: A1 ### Response: A2" =
      before ++ GenerateAdapter.response_marker ++ ws ++ Py.literal "A1" ++ ws' ++ rest ∧
    Py.contains GenerateAdapter.response_marker before = false ∧
    PyMore.spaces ws ∧ PyMore.spaces ws' ∧
    (rest = [] ∨ Py.startswith GenerateAdapter.response_marker rest = true) ∧
    (∀ c, head (Py.literal "A1") = Some c → Py.isspace c = false) ∧
    (∀ c, last (Py.literal "A1") = Some c → Py.isspace c = false) ∧
    Py.contains GenerateAdapter.response_marker (Py.literal "A1") = false.
Proof.
  apply (main_prints_trimmed_segment (Py.literal "Q ### Response: A1 ### Response: A2")
           (Py.literal "A1")).
  vm_refl.
Defined.

(** ** finetune/adapter.py: the batches *)

Lemma py_max_le (l : list nat) (m : nat) :
  Py.max l = Some m → Forall (λ y, y ≤ m)%nat l.
Proof.
  intros Hm. destruct l as [|x r]; [done|].
  destruct (py_max_Some (x :: r)) as (m' & Hm' & _ & Hall); [done|].
  rewrite Hm in Hm'. by injection Hm' as <-.
Qed.

Lemma py_max_elem (l : list nat) (m : nat) : Py.max l = Some m → m ∈ l.
Proof.
  intros Hm. destruct l as [|x r]; [done|].
  destruct (py_max_Some (x :: r)) as (m' & Hm' & Hin & _); [done|].
  rewrite Hm in Hm'. by injection Hm' as <-.
Qed.

Section GetBatchFacts.
Import Finetune FinetuneMore.

Lemma pad_right_padded (max_len : nat) (s : list Z) (pad : Z) (r : list Z) :
  pad_right max_len s pad = Some r ↔ (length s ≤ max_len)%nat ∧ r = padded max_len pad s.
Proof.
  unfold pad_right, padded.
  destruct (Z.ltb_spec (Z.of_nat max_len - Z.of_nat (length s)) 0) as [Hn|Hn].
  - split; [done|]. intros [? _]. lia.
  - replace (Z.to_nat (Z.of_nat max_len - Z.of_nat (length s)))
      with (max_len - length s)%nat by lia.
    split; [intros [= <-]; split; [lia|done] | by intros [_ ->]].
Qed.

Lemma padded_all {B} (f : B → list Z) (max_len : nat) (pad : Z)
    (samples : list B) (rows : list (list Z)) :
  mapM (λ s, pad_right max_len s pad) (map f samples) = Some rows ↔
  Forall (λ e, length (f e) ≤ max_len)%nat samples ∧
  rows = map (λ e, padded max_len pad (f e)) samples.
Proof.
  revert rows. induction samples as [|e samples IH]; intros rows.
  - simpl. split; [by intros [= <-]|by intros [_ ->]].
  - cbn [map]. split.
    + intros H%mapM_Some_1.
      apply Forall2_cons_inv_l in H as (r & rows' & Hr & Hrows & ->).
      apply pad_right_padded in Hr as [Hle ->].
      apply mapM_Some_2, IH in Hrows as [Hall ->]. split; [by constructor|done].
    + intros [Hall ->]. apply Forall_cons in Hall as [Hle Hall].
      apply mapM_Some_2. constructor; [by apply pad_right_padded|].
      apply mapM_Some_1, IH. by split.
Qed.

Lemma slice_to_take {A} (m : Z) (l : list A) :
  Py.slice_to m l = take (sliced_width m (length l)) l.
Proof.
  unfold Py.slice_to, sliced_width. destruct (m <? 0).
  - destruct (decide (Z.to_nat (Z.of_nat (length l) + m) ≤ length l)%nat).
    + by rewrite Nat.min_l.
    + rewrite Nat.min_r, !take_ge; [done|lia..].
  - destruct (decide (Z.to_nat m ≤ length l)%nat).
    + by rewrite Nat.min_l.
    + rewrite Nat.min_r, !take_ge; [done|lia..].
Qed.

Lemma truncate_take (cap : option Z) (rows : list (list Z)) (n : nat) :
  Forall (λ r, length r = n) rows →
  truncate cap rows = map (take (truncated_width cap n)) rows.
Proof.
  intros Hrows. unfold truncate, truncated_width.
  assert (Hid : rows = map (take n) rows).
  { induction Hrows as [|r rows Hr _ IH]; [done|]. simpl.
    rewrite <- IH. by rewrite take_ge by lia. }
  destruct cap as [m|]; [destruct (Py.truthy (Some m))|]; try done.
  induction Hrows as [|r rows Hr _ IH]; [done|]. simpl.
  rewrite slice_to_take, Hr. f_equal. apply IH.
  clear -Hid. simpl in Hid. by injection Hid.
Qed.

(** What a returned batch is made of. *)
Lemma get_batch_inv (rng : nat → nat) (data : list Example)
    (micro_batch_size : Z) (max_seq_length : option Z)
    (longest_seq_ix : option nat) (x y : list (list Z)) :
  get_batch rng data micro_batch_size max_seq_length longest_seq_ix = Some (x, y) ↔
  ∃ ix samples max_len,
    batch_indices rng data micro_batch_size longest_seq_ix = Some ix ∧
    Forall2 (λ i e, data !! i = Some e) ix samples ∧
    Py.max (map length (map input_ids samples)) = Some max_len ∧
    Forall (λ e, length (labels e) ≤ max_len)%nat samples ∧
    x = map (λ e, take (truncated_width max_seq_length max_len)
                       (padded max_len 0 (input_ids e))) samples ∧
    y = map (λ e, take (truncated_width max_seq_length max_len)
                       (padded max_len (-1) (labels e))) samples.
Proof.
  unfold get_batch. split.
  - intros H.
    destruct (batch_indices rng data micro_batch_size longest_seq_ix) as [ix|] eqn:Hix;
      [|done]. simpl in H.
    destruct (mapM (λ i, data !! i) ix) as [samples|] eqn:Hsamples; [|done]. simpl in H.
    destruct (Py.max (map length (map input_ids samples))) as [max_len|] eqn:Hmax;
      [|done]. simpl in H.
    destruct (mapM _ (map input_ids samples)) as [x0|] eqn:Hx; [|done]. simpl in H.
    destruct (mapM _ (map labels samples)) as [y0|] eqn:Hy; [|done]. simpl in H.
    injection H as <- <-.
    apply padded_all in Hx as [_ ->]. apply padded_all in Hy as [Hlab ->].
    exists ix, samples, max_len. split; [done|].
    split; [by apply mapM_Some_1 in Hsamples|]. split; [done|]. split; [done|].
    rewrite !(truncate_take _ _ max_len), !map_map; [done|..].
    + apply Forall_fmap, Forall_forall. intros e He. simpl. unfold padded.
      rewrite length_app, length_replicate. rewrite Forall_forall in Hlab.
      specialize (Hlab e He). simpl in Hlab. lia.
    + apply Forall_fmap, Forall_forall. intros e He. simpl. unfold padded.
      rewrite length_app, length_replicate.
      apply py_max_le in Hmax. rewrite Forall_forall in Hmax.
      specialize (Hmax (length (input_ids e))). 
      assert (length (input_ids e) ≤ max_len)%nat; [|lia].
      apply Hmax. apply list_elem_of_fmap. exists (input_ids e). split; [done|].
      apply list_elem_of_fmap. by exists e.
  - intros (ix & samples & max_len & -> & Hs & Hmax & Hlab & -> & ->). simpl.
    apply mapM_Some_2 in Hs. rewrite Hs. simpl. rewrite Hmax. simpl.
    assert (Hin : Forall (λ e, length (input_ids e) ≤ max_len)%nat samples).
    { apply Forall_forall. intros e He. apply py_max_le in Hmax.
      rewrite Forall_forall in Hmax. apply Hmax.
      apply list_elem_of_fmap. exists (input_ids e). split; [done|].
      apply list_elem_of_fmap. by exists e. }
    rewrite (proj2 (padded_all input_ids max_len 0 samples _) (conj Hin eq_refl)).
    simpl.
    rewrite (proj2 (padded_all labels max_len (-1) samples _) (conj Hlab eq_refl)).
    simpl. rewrite !(truncate_take _ _ max_len), !map_map; [done|..].
    + apply Forall_fmap, Forall_forall. intros e He. simpl. unfold padded.
      rewrite length_app, length_replicate. rewrite Forall_forall in Hlab.
      specialize (Hlab e He). simpl in Hlab. lia.
    + apply Forall_fmap, Forall_forall. intros e He. simpl. unfold padded.
      rewrite length_app, length_replicate. rewrite Forall_forall in Hin.
      specialize (Hin e He). simpl in Hin. lia.
Qed.


Lemma truncated_width_facts (cap : option Z) (n : nat) :
  (truncated_width cap n ≤ n)%nat ∧
  (Py.truthy cap = false → truncated_width cap n = n) ∧
  (∀ c, cap = Some c → 0 < c → truncated_width cap n = Nat.min (Z.to_nat c) n).
Proof.
  unfold truncated_width, sliced_width. destruct cap as [c|]; simpl.
  - destruct (Z.eqb_spec c 0) as [->|Hc]; simpl.
    + split; [done|]. split; [done|]. intros ? [= <-]. lia.
    + destruct (Z.ltb_spec c 0).
      * split; [lia|]. split; [done|]. intros ? [= <-]. lia.
      * split; [lia|]. split; [done|]. by intros ? [= <-].
  - split; [done|]. split; [done|]. done.
Qed.

Lemma batch_indices_forced (rng : nat → nat) (data : list Example)
    (micro_batch_size : Z) (l : nat) (ix : list nat) :
  batch_indices rng data micro_batch_size (Some l) = Some ix → ∃ ix', ix = l :: ix'.
Proof.
  unfold batch_indices. destruct (randint _ _ _) as [[|i ix0]|]; simpl; try done.
  intros [= <-]. by eexists.
Qed.

Lemma batch_indices_Some (rng : nat → nat) (data : list Example)
    (micro_batch_size : Z) (o : option nat) (ix : list nat) :
  batch_indices rng data micro_batch_size o = Some ix →
  data ≠ [] ∧ 0 ≤ micro_batch_size ∧ length ix = Z.to_nat micro_batch_size.
Proof.
  intros Hix. split; [|split; [|by eapply batch_indices_length]].
  - intros ->. unfold batch_indices, randint in Hix. simpl in Hix.
    by destruct (micro_batch_size <? 0).
  - unfold batch_indices, randint in Hix.
    destruct (Z.ltb_spec micro_batch_size 0); [done|lia].
Qed.

End GetBatchFacts.

Section GetBatchExtras.
Import Finetune FinetuneMore.

(** X7. The rows of a batch, exactly. [get_batch] takes the examples at
    the sampled positions, pads each on the right to the longest input
    among them (inputs with 0, labels with -1) and keeps the first
    [width] columns. Without a cap, or with the cap 0, [width] is that
    longest length: every example is there in full and the longest one
    carries no padding. Under a positive cap [c], [width] is the
    smaller of [c] and the longest length: long examples lose their
    end. A label sequence longer than the longest input of the batch
    would have made the call raise. *)
Theorem get_batch_rows (rng : nat → nat) (data : list Example)
    (micro_batch_size : Z) (max_seq_length : option Z)
    (longest_seq_ix : option nat) (x y : list (list Z)) :
  get_batch rng data micro_batch_size max_seq_length longest_seq_ix = Some (x, y) →
  ∃ (ix : list nat) (samples : list Example) (max_len width : nat),
    batch_indices rng data micro_batch_size longest_seq_ix = Some ix ∧
    Forall2 (λ i e, data !! i = Some e) ix samples ∧
    Forall (λ e, length (input_ids e) ≤ max_len ∧ length (labels e) ≤ max_len)%nat
           samples ∧
    (∃ e, e ∈ samples ∧ length (input_ids e) = max_len) ∧
    x = map (λ e, take width
                    (input_ids e ++ replicate (max_len - length (input_ids e)) 0))
            samples ∧
    y = map (λ e, take width
                    (labels e ++ replicate (max_len - length (labels e)) (-1)))
            samples ∧
    (width ≤ max_len)%nat ∧
    (Py.truthy max_seq_length = false → width = max_len) ∧
    (∀ c, max_seq_length = Some c → 0 < c → width = Nat.min (Z.to_nat c) max_len).
Proof.
  intros H. apply get_batch_inv in H
    as (ix & samples & max_len & Hix & Hs & Hmax & Hlab & -> & ->).
  exists ix, samples, max_len, (truncated_width max_seq_length max_len).
  split; [done|]. split; [done|]. split; [|split].
  - apply Forall_forall. intros e He. split.
    + apply py_max_le in Hmax. rewrite Forall_forall in Hmax. apply Hmax.
      apply list_elem_of_fmap. exists (input_ids e). split; [done|].
      apply list_elem_of_fmap. by exists e.
    + rewrite Forall_forall in Hlab. by apply Hlab.
  - apply py_max_elem in Hmax.
    apply list_elem_of_fmap in Hmax as (s & -> & Hin).
    apply list_elem_of_fmap in Hin as (e & -> & Hin). by exists e.
  - split; [done|]. split; [done|]. apply truncated_width_facts.
Qed.

(** X8. When [get_batch] returns and when it raises. On data whose
    label sequences are as long as their inputs, the call returns a
    batch exactly when the data set is not empty, the micro-batch size
    is positive and the forced position, if one is given, lies inside
    the data set; whatever the generator draws and whatever the cap.
    In every other case it raises. *)
Theorem get_batch_returns_iff (rng : nat → nat) (data : list Example)
    (micro_batch_size : Z) (max_seq_length : option Z)
    (longest_seq_ix : option nat) :
  Forall (λ e, length (labels e) = length (input_ids e)) data →
  is_Some (get_batch rng data micro_batch_size max_seq_length longest_seq_ix) ↔
  data ≠ [] ∧ 0 < micro_batch_size ∧
  ∀ l, longest_seq_ix = Some l → (l < length data)%nat.
Proof.
  intros Hwf. split.
  - intros [[x y] H]. apply get_batch_inv in H
      as (ix & samples & max_len & Hix & Hs & Hmax & _).
    destruct (batch_indices_Some _ _ _ _ _ Hix) as (Hne & Hnn & Hlen).
    split; [done|]. split.
    + destruct samples as [|e samples]; [done|].
      apply Forall2_length in Hs. simpl in Hs. lia.
    + intros l ->. apply batch_indices_forced in Hix as [ix' ->].
      apply Forall2_cons_inv_l in Hs as (e & _ & He & _).
      by apply lookup_lt_Some in He.
  - intros (Hne & Hpos & Hl). by apply get_batch_total.
Qed.

(** X9. The batches fit the sequence length that [train] gives the
    model. [train] sets [model.max_seq_length] to the smaller of the
    longest input of the training data and the cap (no cap, or the cap
    0, leaves the longest input). For a cap that is not negative, every
    batch drawn from the training data has rows no wider than that, and
    the first batch of the loop, which is forced to hold the longest
    example, has rows of exactly that width. *)
Theorem get_batch_fits_model_max_seq_length (rng : nat → nat) (data : list Example)
    (micro_batch_size : Z) (max_seq_length : option Z)
    (longest_seq_length longest_seq_ix : nat) (o : option nat)
    (x y : list (list Z)) :
  get_longest_seq_length data = Some (longest_seq_length, longest_seq_ix) →
  (∀ c, max_seq_length = Some c → 0 ≤ c) →
  get_batch rng data micro_batch_size max_seq_length o = Some (x, y) →
  let limit := model_max_seq_length longest_seq_length max_seq_length in
  Forall (λ r, Z.of_nat (length r) ≤ limit) x ∧
  Forall (λ r, Z.of_nat (length r) ≤ limit) y ∧
  (o = Some longest_seq_ix →
   Forall (λ r, Z.of_nat (length r) = limit) x ∧
   Forall (λ r, Z.of_nat (length r) = limit) y).
Proof.
  intros Hlong Hcap H limit. apply get_batch_inv in H
    as (ix & samples & max_len & Hix & Hs & Hmax & Hlab & -> & ->).
  unfold get_longest_seq_length in Hlong.
  apply bind_Some in Hlong as (L & HL & Hlong).
  apply bind_Some in Hlong as (lix & Hlix & [= <- <-]).
  pose proof (py_max_le _ _ HL) as HLall.
  assert (Hin : ∀ i e, data !! i = Some e → (length (input_ids e) ≤ L)%nat).
  { intros i e He. rewrite Forall_forall in HLall. apply HLall.
    apply list_elem_of_fmap. exists e. split; [done|]. by eapply list_elem_of_lookup_2. }
  assert (Hle : (max_len ≤ L)%nat).
  { apply py_max_elem in Hmax.
    apply list_elem_of_fmap in Hmax as (s & -> & Hmem).
    apply list_elem_of_fmap in Hmem as (e & -> & Hmem).
    apply list_elem_of_lookup_1 in Hmem as [j Hj].
    destruct (Forall2_lookup_r _ _ _ _ _ Hs Hj) as (i & _ & Hi). by eapply Hin. }
  assert (Hrows : ∀ pad (f : Example → list Z),
    Forall (λ e, length (f e) ≤ max_len)%nat samples →
    Forall (λ r, length r = truncated_width max_seq_length max_len)
      (map (λ e, take (truncated_width max_seq_length max_len)
                      (padded max_len pad (f e))) samples)).
  { intros pad f Hf. apply Forall_fmap, Forall_forall. intros e He. simpl.
    rewrite length_take. unfold padded. rewrite length_app, length_replicate.
    rewrite Forall_forall in Hf. specialize (Hf e He). simpl in Hf.
    destruct (truncated_width_facts max_seq_length max_len) as [? _]. lia. }
  assert (Hinp : Forall (λ e, length (input_ids e) ≤ max_len)%nat samples).
  { apply Forall_forall. intros e He. apply py_max_le in Hmax.
    rewrite Forall_forall in Hmax. apply Hmax.
    apply list_elem_of_fmap. exists (input_ids e). split; [done|].
    apply list_elem_of_fmap. by exists e. }
  assert (Hlim : ∀ n, (n ≤ L)%nat →
    Z.of_nat (truncated_width max_seq_length n) ≤ limit ∧
    (n = L → Z.of_nat (truncated_width max_seq_length n) = limit)).
  { intros n Hn. subst limit. unfold model_max_seq_length, truncated_width, sliced_width.
    destruct max_seq_length as [c|]; [|lia]. specialize (Hcap c eq_refl).
    simpl. destruct (Z.eqb_spec c 0); simpl; [lia|].
    destruct (Z.ltb_spec c 0); lia. }
  destruct (Hlim max_len Hle) as [Hw Heq].
  split; [|split].
  - eapply Forall_impl; [exact (Hrows 0 input_ids Hinp)|]. simpl. intros r ->. exact Hw.
  - eapply Forall_impl; [exact (Hrows (-1) labels Hlab)|]. simpl. intros r ->. exact Hw.
  - intros ->. apply batch_indices_forced in Hix as [ix' ->].
    apply Forall2_cons_inv_l in Hs as (e & samples' & He & _ & ->).
    assert (HeL : length (input_ids e) = L).
    { apply py_index_Some in Hlix as [Hl _].
      change (map (λ d, length (input_ids d)) data)
        with ((λ d, length (input_ids d)) <$> data) in Hl.
      rewrite list_lookup_fmap, He in Hl. simpl in Hl. by injection Hl. }
    assert (max_len = L) as Hm.
    { apply Forall_cons in Hinp as [? _]. lia. }
    specialize (Heq Hm).
    split.
    + eapply Forall_impl; [exact (Hrows 0 input_ids Hinp)|]. simpl. intros r ->.
      exact Heq.
    + eapply Forall_impl; [exact (Hrows (-1) labels Hlab)|]. simpl. intros r ->.
      exact Heq.
Qed.

End GetBatchExtras.

Lemma get_batch_rows_witness :
  ∃ (ix : list nat) (samples : list Finetune.Example) (max_len width : nat),
    Finetune.batch_indices Samples.counting_rng Samples.three_examples 2 None = Some ix ∧
    Forall2 (λ i e, Samples.three_examples !! i = Some e) ix samples ∧
    Forall (λ e, length (Finetune.input_ids e) ≤ max_len ∧
                 length (Finetune.labels e) ≤ max_len)%nat samples ∧
    (∃ e, e ∈ samples ∧ length (Finetune.input_ids e) = max_len) ∧
    [[1; 2]; [3; 4]] =
      map (λ e, take width
                  (Finetune.input_ids e ++
                   replicate (max_len - length (Finetune.input_ids e)) 0)) samples ∧
    [[-1; 2]; [-1; -1]] =
      map (λ e, take width
                  (Finetune.labels e ++
                   replicate (max_len - length (Finetune.labels e)) (-1))) samples ∧
    (width ≤ max_len)%nat ∧
    (Py.truthy (Some 2) = false → width = max_len) ∧
    (∀ c, Some 2 = Some c → 0 < c → width = Nat.min (Z.to_nat c) max_len).
Proof.
  apply (get_batch_rows Samples.counting_rng Samples.three_examples 2 (Some 2) None).
  reflexivity.
Defined.

Lemma get_batch_returns_iff_witness :
  is_Some (Finetune.get_batch Samples.counting_rng Samples.three_examples 2
             (Some 2) (Some 1%nat)) ↔
  Samples.three_examples ≠ [] ∧ 0 < 2 ∧
  ∀ l, Some 1%nat = Some l → (l < length Samples.three_examples)%nat.
Proof.
  apply (get_batch_returns_iff Samples.counting_rng Samples.three_examples 2
           (Some 2) (Some 1%nat)).
  repeat constructor.
Defined.

Lemma get_batch_fits_model_max_seq_length_witness :
  FinetuneMore.model_max_seq_length 3 (Some 2) = 2 ∧
  Finetune.get_batch Samples.counting_rng Samples.three_examples 2 (Some 2)
    (Some 1%nat) = Some ([[3; 4]; [3; 4]], [[-1; -1]; [-1; -1]]) ∧
  let limit := FinetuneMore.model_max_seq_length 3 (Some 2) in
  Forall (λ r, Z.of_nat (length r) ≤ limit) [[3; 4]; [3; 4]] ∧
  Forall (λ r, Z.of_nat (length r) ≤ limit) [[-1; -1]; [-1; -1]] ∧
  (Some 1%nat = Some 1%nat →
   Forall (λ r, Z.of_nat (length r) = limit) [[3; 4]; [3; 4]] ∧
   Forall (λ r, Z.of_nat (length r) = limit) [[-1; -1]; [-1; -1]]).
Proof.
  split; [reflexivity|]. split; [reflexivity|].
  apply (get_batch_fits_model_max_seq_length Samples.counting_rng
           Samples.three_examples 2 (Some 2) 3 1 (Some 1%nat)).
  - reflexivity.
  - intros c [= <-]. lia.
  - reflexivity.
Defined.

(** ** finetune/adapter.py: the whole run *)

Section TrainRunFacts.
Import Finetune FinetuneMore.






Lemma elem_of_flat_map {A B} (f : A → list B) (l : list A) (x : B) :
  x ∈ flat_map f l ↔ ∃ y, y ∈ l ∧ x ∈ f y.
Proof.
  induction l as [|a l IH]; simpl.
  - split; [by intros ?%elem_of_nil|]. by intros (y & ?%elem_of_nil & _).
  - rewrite elem_of_app, IH. split.
    + intros [H|(y & Hy & H)]; [exists a|exists y]; (split; [|done]);
        [by left|by right].
    + intros (y & [->|Hy]%elem_of_cons & H); [by left|right; by exists y].
Qed.


End TrainRunFacts.

Section TrainRunExtras.
Import Finetune FinetuneMore.



End TrainRunExtras.



(** ** finetune/adapter.py: [setup] *)

Section SetupFacts.
Import FinetuneMore.

Lemma is_bnb_spec (quantize : option string) :
  is_bnb quantize ↔
  ∃ q, quantize = Some q ∧ Py.startswith (Py.chars "bnb.") (Py.chars q) = true.
Proof.
  unfold is_bnb. split.
  - intros [mode ->]. eexists. split; [done|]. apply startswith_spec.
    exists (Py.chars mode). by rewrite chars_app.
  - intros (q & -> & Hq). apply startswith_spec in Hq as [rest Hq].
    destruct (chars_surj rest) as [mode <-]. exists mode. f_equal.
    apply chars_inj. by rewrite chars_app.
Qed.

Lemma is_bnb_truthy (quantize : option string) :
  is_bnb quantize → str_truthy quantize = true.
Proof. by intros [mode ->]. Qed.

Lemma str_drop_app (a b : string) : str_drop (String.length a) (a +:+ b) = b.
Proof. induction a as [|c a IH]; simpl; [by destruct b|done]. Qed.

Lemma precision_dtypes_lookup (p : string) (dtype : Dtype) :
  precision_dtypes !! p = Some dtype ↔
  (p = "16-true" ∧ dtype = Float16) ∨ (p = "bf16-true" ∧ dtype = BFloat16) ∨
  (p = "32-true" ∧ dtype = Float32).
Proof.
  unfold precision_dtypes. rewrite !lookup_insert_Some, lookup_singleton_Some.
  split.
  - intros [[<- <-]|[_ [[<- <-]|[_ [<- <-]]]]]; tauto.
  - intros [[-> ->]|[[-> ->]|[-> ->]]].
    + by left.
    + right. split; [done|]. by left.
    + right. split; [done|]. right. by split.
Qed.


(** [setup], case by case. *)
Lemma setup_bnb (default_precision : string) (precision_arg : option string)
    (mode : string) (devices : Z) :
  setup default_precision precision_arg (Some ("bnb." +:+ mode)) devices =
  let precision0 := str_or precision_arg default_precision in
  if Py.str_contains "mixed" precision0 then inl ValueError
  else match precision_dtypes !! precision0 with
       | None => inl KeyError
       | Some dtype =>
           if 1 <? devices then inl NotImplementedError
           else inr {| fabric_devices := devices; strategy := Auto;
                       precision := None; plugins := Some (mode, dtype) |}
       end.
Proof.
  unfold setup. cbv zeta.
  assert (Hs : Py.startswith (Py.chars "bnb.") (Py.chars ("bnb." +:+ mode)) = true).
  { apply startswith_spec. exists (Py.chars mode). by rewrite chars_app. }
  rewrite Hs. destruct (Py.str_contains _ _); [done|].
  destruct (precision_dtypes !! _); [|done].
  change (str_drop 4 ("bnb." +:+ mode)) with mode. done.
Qed.

Lemma setup_not_bnb (default_precision : string) (precision_arg quantize : option string)
    (devices : Z) :
  ¬ is_bnb quantize →
  setup default_precision precision_arg quantize devices =
  if 1 <? devices then
    if str_truthy quantize then inl NotImplementedError
    else inr {| fabric_devices := devices; strategy := FSDPStrategy;
                precision := Some (str_or precision_arg default_precision);
                plugins := None |}
  else inr {| fabric_devices := devices; strategy := Auto;
              precision := Some (str_or precision_arg default_precision);
              plugins := None |}.
Proof.
  intros Hn. unfold setup. cbv zeta. destruct quantize as [q|]; [|done].
  destruct (Py.startswith (Py.chars "bnb.") (Py.chars q)) eqn:Hs; [|done].
  destruct Hn. apply is_bnb_spec. by exists q.
Qed.

Lemma is_bnb_dec (quantize : option string) : is_bnb quantize ∨ ¬ is_bnb quantize.
Proof.
  destruct quantize as [q|].
  - destruct (Py.startswith (Py.chars "bnb.") (Py.chars q)) eqn:Hs.
    + left. apply is_bnb_spec. by exists q.
    + right. intros (q' & [= <-] & Hq)%is_bnb_spec. congruence.
  - right. by intros [mode ?].
Qed.

End SetupFacts.

Section SetupExtras.
Import FinetuneMore.

(** X12. What [setup] hands to [L.Fabric] when it gets that far. The
    device count is passed on, and the strategy is FSDP exactly when
    there is more than one device; in that case nothing is quantized.
    A [quantize] value ["bnb." + mode] gives a BitsandbytesPrecision
    plug-in with that mode and the dtype listed for the effective
    precision (the argument, or the default when the argument is
    [None] or empty), the Fabric precision is then [None] and the run
    is on at most one device. Any other [quantize] value gives no
    plug-in and the effective precision as the Fabric precision. So
    exactly one of the two, plug-in or precision, is set. *)
Theorem setup_fabric (default_precision : string)
    (precision_arg quantize : option string) (devices : Z) (fabric : Fabric) :
  setup default_precision precision_arg quantize devices = inr fabric →
  fabric_devices fabric = devices ∧
  (strategy fabric = FSDPStrategy ↔ 1 < devices) ∧
  (1 < devices → str_truthy quantize = false) ∧
  (∀ mode, quantize = Some ("bnb." +:+ mode) →
     ∃ dtype,
       precision_dtypes !! str_or precision_arg default_precision = Some dtype ∧
       Py.str_contains "mixed" (str_or precision_arg default_precision) = false ∧
       plugins fabric = Some (mode, dtype) ∧ precision fabric = None ∧
       devices ≤ 1) ∧
  (¬ is_bnb quantize →
     plugins fabric = None ∧
     precision fabric = Some (str_or precision_arg default_precision)) ∧
  (is_Some (plugins fabric) ↔ precision fabric = None).
Proof.
  intros Hrun. destruct (is_bnb_dec quantize) as [[mode ->]|Hn].
  - rewrite setup_bnb in Hrun. cbv zeta in Hrun.
    destruct (Py.str_contains _ _) eqn:Hmixed; [done|].
    destruct (precision_dtypes !! _) as [dtype|] eqn:Hd; [|done].
    destruct (Z.ltb_spec 1 devices) as [Hlt|Hle]; [done|].
    injection Hrun as <-. cbn [fabric_devices strategy precision plugins].
    split; [done|]. split; [split; [done|lia]|]. split; [lia|]. split.
    + intros mode' [= Hmode]. change (mode = mode') in Hmode. subst mode'.
      by exists dtype.
    + split; [intros []; by exists mode|]. split; [done|by eexists].
  - rewrite setup_not_bnb in Hrun by done.
    destruct (Z.ltb_spec 1 devices) as [Hlt|Hle].
    + destruct (str_truthy quantize) eqn:Ht; [done|]. injection Hrun as <-.
      cbn [fabric_devices strategy precision plugins].
      split; [done|]. split; [done|]. split; [done|]. split.
      * intros mode ->. destruct Hn. by exists mode.
      * split; [done|]. split; [by intros [? ?]|done].
    + injection Hrun as <-. cbn [fabric_devices strategy precision plugins].
      split; [done|]. split; [split; [done|lia]|]. split; [lia|]. split.
      * intros mode ->. destruct Hn. by exists mode.
      * split; [done|]. split; [by intros [? ?]|done].
Qed.

(** X13. Which error [setup] raises, and in which order the checks
    come. A bitsandbytes mode together with a precision whose name
    contains ["mixed"] is a [ValueError]; a bitsandbytes mode with any
    other precision that is not one of the three listed names is a
    [KeyError] from the dtype lookup; both come before the device
    count is looked at. Past these, more than one device together with
    a non-empty [quantize] is a [NotImplementedError]. *)
Theorem setup_errors (default_precision : string)
    (precision_arg quantize : option string) (devices : Z) :
  (setup default_precision precision_arg quantize devices = inl ValueError ↔
   is_bnb quantize ∧
   Py.str_contains "mixed" (str_or precision_arg default_precision) = true) ∧
  (setup default_precision precision_arg quantize devices = inl KeyError ↔
   is_bnb quantize ∧
   Py.str_contains "mixed" (str_or precision_arg default_precision) = false ∧
   precision_dtypes !! str_or precision_arg default_precision = None) ∧
  (setup default_precision precision_arg quantize devices = inl NotImplementedError ↔
   1 < devices ∧ str_truthy quantize = true ∧
   (is_bnb quantize →
    Py.str_contains "mixed" (str_or precision_arg default_precision) = false ∧
    is_Some (precision_dtypes !! str_or precision_arg default_precision))).
Proof.
  destruct (is_bnb_dec quantize) as [Hb|Hn].
  - pose proof (is_bnb_truthy _ Hb) as Ht. destruct (Hb) as [mode ->].
    rewrite setup_bnb. cbv zeta.
    destruct (Py.str_contains _ _); [|destruct (precision_dtypes !! _) as [dtype|]].
    + split; [done|]. split; [split; [done|by intros (_ & ? & _)]|].
      split; [done|]. intros (_ & _ & H). by destruct (H Hb).
    + destruct (Z.ltb_spec 1 devices) as [Hlt|Hle].
      * split; [split; [done|by intros [_ ?]]|].
        split; [split; [done|by intros (_ & _ & ?)]|].
        split; [intros _|done]. split; [done|]. split; [done|]. intros _.
        split; [done|by eexists].
      * split; [split; [done|by intros [_ ?]]|].
        split; [split; [done|by intros (_ & _ & ?)]|].
        split; [done|]. intros [? _]. lia.
    + split; [split; [done|by intros [_ ?]]|]. split; [done|].
      split; [done|]. intros (_ & _ & H). destruct (H Hb) as [_ [? ?]]. done.
  - rewrite setup_not_bnb by done.
    destruct (Z.ltb_spec 1 devices) as [Hlt|Hle]; [destruct (str_truthy quantize)|].
    + split; [split; [done|by intros [? _]]|].
      split; [split; [done|by intros [? _]]|]. done.
    + split; [split; [done|by intros [? _]]|].
      split; [split; [done|by intros [? _]]|].
      split; [done|]. by intros (_ & ? & _).
    + split; [split; [done|by intros [? _]]|].
      split; [split; [done|by intros [? _]]|].
      split; [done|]. intros [? _]. lia.
Qed.

End SetupExtras.

Lemma setup_fabric_witness :
  ∃ fabric,
    FinetuneMore.setup "bf16-mixed" (Some "bf16-true") (Some "bnb.nf4") 1 = inr fabric ∧
    FinetuneMore.plugins fabric = Some ("nf4", FinetuneMore.BFloat16) ∧
    FinetuneMore.precision fabric = None ∧
    (FinetuneMore.strategy fabric = FinetuneMore.FSDPStrategy ↔ 1 < 1).
Proof.
  pose (fabric := {| FinetuneMore.fabric_devices := 1;
                     FinetuneMore.strategy := FinetuneMore.Auto;
                     FinetuneMore.precision := None;
                     FinetuneMore.plugins := Some ("nf4", FinetuneMore.BFloat16) |}).
  assert (Hrun : FinetuneMore.setup "bf16-mixed" (Some "bf16-true") (Some "bnb.nf4") 1
                 = inr fabric) by vm_refl.
  destruct (setup_fabric "bf16-mixed" (Some "bf16-true") (Some "bnb.nf4") 1 fabric Hrun)
    as (_ & Hs & _ & Hq & _).
  destruct (Hq "nf4" eq_refl) as (dtype & _ & _ & Hp & Hpr & _).
  exists fabric. split; [exact Hrun|]. split; [reflexivity|]. split; [exact Hpr|exact Hs].
Defined.

(** ** xla/finetune/adapter.py: batches and schedule *)

Section XlaMoreFacts.
Import XlaFinetune XlaMore.

Lemma xla_train_iter_closed (hp : Hparams) (iter_num : Z) (st st' : LoopState) :
  gradient_accumulation_iters hp = 1 →
  step_count st = iter_num →
  train_iter hp iter_num st = Some st' →
  step_count st' = iter_num + 1 ∧
  events st' = events st ++ iter_events hp iter_num.
Proof.
  intros Hg Hsc H. unfold train_iter in H.
  rewrite (xla_never_accumulating hp _ Hg), Hsc in H.
  apply bind_Some in H as (st0 & H0 & H).
  assert (Hst0 : st0 = if iter_num <=? warmup_steps hp
                       then emit [SetLr iter_num (warmup_steps hp)] st else st).
  { destruct (iter_num <=? warmup_steps hp); [|by injection H0].
    destruct (warmup_steps hp =? 0); [done|]. by injection H0. }
  clear H0. apply bind_Some in H as (acc & [= <-] & H). cbn [negb] in H.
  apply bind_Some in H as (r & Hr & H).
  unfold Py.mod_, log_interval in Hr. change (1 =? 0) with false in Hr.
  rewrite Z.mod_1_r in Hr. injection Hr as <-. change (0 =? 0) with true in H.
  apply bind_Some in H as (st2 & H2 & H3).
  unfold every, Py.mod_, eval_interval, save_interval in H2, H3.
  change (200 =? 0) with false in H2, H3. cbn [mbind option_bind] in H2, H3.
  injection H2 as <-. injection H3 as <-.
  unfold iter_events, eval_interval, save_interval. subst st0.
  destruct (iter_num <=? warmup_steps hp);
    cbn [emit step_count events]; rewrite Hsc;
    destruct ((iter_num + 1) `mod` 200 =? 0) eqn:E;
    cbn [emit step_count events]; rewrite ?E;
    cbn [emit step_count events]; rewrite <- ?app_assoc; done.
Qed.


Lemma xla_train_loop_closed (hp : Hparams) (n : nat) (a : Z) (st st' : LoopState) :
  gradient_accumulation_iters hp = 1 →
  step_count st = a →
  train_loop hp n a st = Some st' →
  step_count st' = a + Z.of_nat n ∧
  events st' = events st ++ flat_map (iter_events hp) (seqZ a (Z.of_nat n)).
Proof.
  intros Hg. revert a st. induction n as [|n IH]; intros a st Hsc.
  - intros [= <-]. simpl. split; [lia|]. by rewrite app_nil_r.
  - cbn [train_loop]. intros H. apply bind_Some in H as (st1 & H1 & Hrest).
    destruct (xla_train_iter_closed _ _ _ _ Hg Hsc H1) as [Hsc1 Hev1].
    destruct (IH _ _ Hsc1 Hrest) as [IHc IHe]. split; [lia|].
    rewrite IHe, Hev1, <- app_assoc. f_equal.
    replace (Z.of_nat (S n)) with (Z.succ (Z.of_nat n)) by lia.
    rewrite (seqZ_cons a) by lia. rewrite Z.pred_succ. simpl.
    by replace (Z.succ a) with (a + 1) by lia.
Qed.

Lemma xla_train_closed (devices : Z) (hp : Hparams)
    (train_data : list Finetune.Example) (st' : LoopState) :
  module_constants devices = Some hp →
  train hp train_data = Some st' →
  step_count st' = Z.max 0 (250000 / devices) ∧
  events st' = [MarkStep] ++
    flat_map (iter_events hp) (seqZ 0 (Z.max 0 (250000 / devices))).
Proof.
  intros Hmc Hrun. apply module_constants_Some in Hmc as (_ & Hg & Hmi & _).
  unfold train in Hrun. apply bind_Some in Hrun as (_ & _ & Hrun).
  apply (xla_train_loop_closed _ _ _ _ _ Hg) in Hrun; [|done].
  cbn [step_count events] in Hrun. rewrite Hmi in Hrun.
  replace (Z.of_nat (Z.to_nat (250000 `div` devices)))
    with (Z.max 0 (250000 `div` devices)) in Hrun by lia.
  destruct Hrun as [Hc He]. split; [lia|done].
Qed.

Lemma xla_elem_of_iter_events (hp : Hparams) (i : Z) (e : Event) :
  e ∈ iter_events hp i ↔
  (i ≤ warmup_steps hp ∧ e = SetLr i (warmup_steps hp)) ∨
  e ∈ [GetBatch i (bool_decide (i = 0)); Forward i; MarkStep; Backward i false;
       OptimizerStep; ZeroGrad] ∨
  e = Log i (i + 1) ∨
  ((i + 1) mod 200 = 0 ∧ e ∈ [Validate; Barrier; SaveCheckpoint i]).
Proof.
  unfold iter_events, eval_interval, save_interval.
  rewrite !elem_of_app, !elem_of_cons, !elem_of_nil.
  destruct (Z.leb_spec i (warmup_steps hp));
    destruct (Z.eqb_spec ((i + 1) mod 200) 0);
    rewrite ?elem_of_cons, ?elem_of_nil; intuition lia.
Qed.


End XlaMoreFacts.

Section XlaScheduleExtras.
Import XlaFinetune XlaMore.

(** X14. The warm-up of the learning rate in the accelerator-backend
    trainer. In a run that comes to its end the rate is assigned at the
    start of iteration [s] exactly for the iterations [s] up to and
    including [warmup_steps = 100000 / devices], with the value
    [learning_rate * s / warmup_steps]: the first optimizer step is
    taken with the rate 0, iteration [warmup_steps] sets the full rate,
    and no later iteration touches it. The step counter ends at the
    number of iterations, [250000 / devices]. *)
Theorem xla_warmup_schedule (devices : Z) (hp : Hparams)
    (train_data : list Finetune.Example) (st' : LoopState) :
  module_constants devices = Some hp →
  train hp train_data = Some st' →
  step_count st' = Z.max 0 (250000 / devices) ∧
  ∀ s w, SetLr s w ∈ events st' ↔
         0 ≤ s < 250000 / devices ∧ s ≤ 100000 / devices ∧ w = 100000 / devices.
Proof.
  intros Hmc Hrun. destruct (xla_train_closed _ _ _ _ Hmc Hrun) as [Hc He].
  apply module_constants_Some in Hmc as (_ & _ & _ & Hw).
  split; [done|]. intros s w.
  rewrite He, elem_of_app, elem_of_flat_map, list_elem_of_singleton. split.
  - intros [?|(i & Hi & Hin)]; [done|]. apply elem_of_seqZ in Hi.
    apply xla_elem_of_iter_events in Hin.
    rewrite !elem_of_cons, !elem_of_nil in Hin.
    destruct Hin as [[Hle Heq]|[[?|[?|[?|[?|[?|[?|[]]]]]]]|[?|[_ [?|[?|[?|[]]]]]]]];
      try done.
    injection Heq as -> ->. rewrite Hw in *. lia.
  - intros (Hs & Hle & ->). right. exists s. split; [apply elem_of_seqZ; lia|].
    apply xla_elem_of_iter_events. left. rewrite Hw. done.
Qed.



End XlaScheduleExtras.

Lemma xla_warmup_schedule_witness :
  ∃ st',
    XlaFinetune.train MoreSamples.xla_hparams_50000 Samples.three_examples = Some st' ∧
    XlaFinetune.step_count st' = Z.max 0 (250000 / 50000) ∧
    ∀ s w, XlaFinetune.SetLr s w ∈ XlaFinetune.events st' ↔
           0 ≤ s < 250000 / 50000 ∧ s ≤ 100000 / 50000 ∧ w = 100000 / 50000.
Proof.
  pose (st' := default Samples.xla_fresh_loop
    (XlaFinetune.train MoreSamples.xla_hparams_50000 Samples.three_examples)).
  assert (Hrun : XlaFinetune.train MoreSamples.xla_hparams_50000 Samples.three_examples
                 = Some st') by reflexivity.
  exists st'. split; [exact Hrun|].
  apply (xla_warmup_schedule 50000 MoreSamples.xla_hparams_50000
           Samples.three_examples st'); [reflexivity|exact Hrun].
Defined.


